(** * GenericCrudPage: a shallow embedding of the component's logic

    The development follows [GenericCrudPage.jsx] and [styles.js]:

    - JavaScript values, with the conversions the component applies to them
      ([ToBoolean], [ToString], [String.prototype.trim], [toLowerCase],
      [includes]);
    - the props of the component ([Column], [FormField], callbacks);
    - the hooks of the component ([formState], [search], [formErrors],
      [editingItem]) and a small monad in which the event handlers run: it
      threads the updates queued by the [set...] functions, records the
      calls that leave the component (callbacks, [window.confirm],
      [console.error]) and propagates thrown values;
    - the memoised values [styles] and [filteredData], the validators and
      the handlers, one definition per source function.

    Strings are sequences of code units below 256 (the Latin-1 range), on
    which [toLowerCase] and [trim] are the simple per-unit operations given
    here.  A value is a primitive, or any other value given by its
    truthiness and by the text its [toString()] returns. *)

From Stdlib Require Import ZArith DecimalString Ascii.
From stdpp Require Import gmap strings list fin_maps.

Local Open Scope Z_scope.

(* ===================================================================== *)
(** ** JavaScript values *)
(* ===================================================================== *)

(** [VNum n] is the safe integer [n], which is printed digit by digit
    ([safe_number] below says which [n] these are).  [VOther] is every
    value that is none of the others: a number that is no safe integer
    ([VOther true "1e+21"], [VOther false "NaN"]), an object, an array,
    a function.  The component tells such values apart by their
    truthiness and by the text their [toString()] returns, and by nothing
    else. *)
Inductive value : Type :=
| VUndefined
| VNull
| VBool (b : bool)
| VNum (n : Z)
| VStr (s : string)
| VOther (is_truthy : bool) (text : string).

#[global] Instance value_eq_dec : EqDecision value.
Proof. solve_decision. Defined.

(** A plain object used as a mapping from property names to values: the
    records of [data], [formState], [formErrors], a style object. *)
Abbreviation obj := (gmap string value).

(** [o[k]] for a key [k] that is not the name of a property of
    [Object.prototype]: the object's own property, and [undefined] when it
    has none.  [js_read] below is [o[k]] for every key. *)
Definition js_get (o : obj) (k : string) : value :=
  default VUndefined (o !! k).

(** A built-in function as [toString()] prints it in V8. *)
Definition native_function (name : string) : value :=
  VOther true ("function " +:+ name +:+ "() { [native code] }").

(** What every object inherits from [Object.prototype], by property
    name.  [__proto__] reads as the prototype itself, an object. *)
Definition inherited (k : string) : option value :=
  if bool_decide (k = "constructor") then Some (native_function "Object")
  else if bool_decide (k = "__proto__")
       then Some (VOther true "[object Object]")
  else if bool_decide
            (k ∈ ["hasOwnProperty"; "isPrototypeOf"; "propertyIsEnumerable";
                  "toLocaleString"; "toString"; "valueOf";
                  "__defineGetter__"; "__defineSetter__";
                  "__lookupGetter__"; "__lookupSetter__"])
       then Some (native_function k)
  else None.

(** [o[k]] on a record: the own property if there is one, else the
    inherited one, else [undefined]. *)
Definition js_read (o : obj) (k : string) : value :=
  match o !! k with
  | Some v => v
  | None => default VUndefined (inherited k)
  end.

(** The numbers that [VNum] stands for. *)
Definition safe_number (v : value) : bool :=
  match v with
  | VNum n => Z.abs n <? 2 ^ 53
  | _ => true
  end.

(** Every number of the records is written as the model writes it. *)
Definition safe_data (data : list obj) : bool :=
  forallb (fun o : obj => forallb safe_number (snd <$> map_to_list o)) data.

(** [ToBoolean]: what [if (v)], [!v], [a && b] and [a || b] test. *)
Definition truthy (v : value) : bool :=
  match v with
  | VUndefined | VNull => false
  | VBool b => b
  | VNum n => negb (n =? 0)
  | VStr s => negb (String.eqb s EmptyString)
  | VOther b _ => b
  end.

(** [a || b] *)
Definition js_or (a b : value) : value := if truthy a then a else b.

(** [v == null]: true of [null] and [undefined] only. *)
Definition is_nullish (v : value) : bool :=
  match v with
  | VUndefined | VNull => true
  | _ => false
  end.

(** [a === b] on the values modelled here. *)
Definition strict_eq (a b : value) : bool := bool_decide (a = b).

Definition Z_to_string (n : Z) : string :=
  NilZero.string_of_int (Z.to_int n).

(** [ToString]: the conversion of a template literal, and of
    [v.toString()] when [v] is neither [null] nor [undefined] (on those
    two the method call throws; every call site below is guarded). *)
Definition ToString (v : value) : string :=
  match v with
  | VUndefined => "undefined"
  | VNull => "null"
  | VBool true => "true"
  | VBool false => "false"
  | VNum n => Z_to_string n
  | VStr s => s
  | VOther _ text => text
  end.

(* ===================================================================== *)
(** ** Strings *)
(* ===================================================================== *)

(** Upper-case code units of the Latin-1 range: A-Z, and U+00C0-U+00DE
    without the multiplication sign U+00D7.  Each has its lower-case
    partner 32 code units above. *)
Definition isUpper (c : ascii) : bool :=
  let n := N_of_ascii c in
  ((65 <=? n) && (n <=? 90)
   || (192 <=? n) && (n <=? 222) && negb (n =? 215))%N.

Definition lowerChar (c : ascii) : ascii :=
  if isUpper c then ascii_of_N (N_of_ascii c + 32) else c.

Fixpoint toLowerCase (s : string) : string :=
  match s with
  | EmptyString => EmptyString
  | String c s' => String (lowerChar c) (toLowerCase s')
  end.

(** White space and line terminators below U+0100: TAB, LF, VT, FF, CR,
    SP and NBSP. *)
Definition isWhiteSpace (c : ascii) : bool :=
  let n := N_of_ascii c in
  ((9 <=? n) && (n <=? 13) || (n =? 32) || (n =? 160))%N.

Fixpoint trimStart (s : string) : string :=
  match s with
  | EmptyString => EmptyString
  | String c s' => if isWhiteSpace c then trimStart s' else s
  end.

Fixpoint trimEnd (s : string) : string :=
  match s with
  | EmptyString => EmptyString
  | String c s' =>
      match trimEnd s' with
      | EmptyString => if isWhiteSpace c then EmptyString
                       else String c EmptyString
      | t => String c t
      end
  end.

Definition trim (s : string) : string := trimEnd (trimStart s).

Fixpoint startsWith (s sub : string) : bool :=
  match sub, s with
  | EmptyString, _ => true
  | String _ _, EmptyString => false
  | String a sub', String b s' => Ascii.eqb a b && startsWith s' sub'
  end.

(** [s.includes(sub)] *)
Fixpoint includes (s sub : string) : bool :=
  startsWith s sub ||
  match s with
  | EmptyString => false
  | String _ s' => includes s' sub
  end.

(** The double quote, for the one style value that contains it. *)
Definition dquote : string := String (ascii_of_N 34) EmptyString.

(* ===================================================================== *)
(** ** Props *)
(* ===================================================================== *)

(** What a call to a function supplied by the caller does: it returns, or
    it throws a value. *)
Inductive outcome (A : Type) : Type :=
| Ret (a : A)
| Throw (e : value).
Arguments Ret {A} a.
Arguments Throw {A} e.

(** [{ key, label, render, sortable }] *)
Record Column : Type := {
  col_key : string;
  col_label : option string;
  col_render : option (obj -> value);
  col_sortable : bool
}.

Inductive FieldType : Type :=
| TText | TEmail | TPassword | TNumber | TSelect | TTextarea.

(** [{ key, label, type, placeholder, required, options, validation }],
    and the [defaultValue] of the README's field definition.  A property
    that a declaration leaves out is [None] ([false] for [required], which
    is only ever tested for truth). *)
Record FormField : Type := {
  key : string;
  label : option string;
  type : option FieldType;
  placeholder : option string;
  required : bool;
  options : list (string * string);
  validation : option (value -> outcome value);
  defaultValue : option value
}.

Record Props : Type := {
  data : list obj;
  columns : list Column;
  formFields : list FormField;
  onAdd : option (obj -> outcome unit);
  onEdit : option (obj -> outcome unit);
  onDelete : option (value -> outcome unit);
  renderActions : option (obj -> value);
  customStyles : gmap string obj;
  confirmDelete : bool
}.

(** The browser, as far as the component consults it: the answer of the
    user to [window.confirm]. *)
Record Window : Type := {
  confirm : string -> bool
}.

(* ===================================================================== *)
(** ** Hooks, effects and the handler monad *)
(* ===================================================================== *)

(** The four [useState] cells. *)
Record Hooks : Type := {
  formState : obj;
  search : string;
  formErrors : obj;
  editingItem : option obj
}.

(** [useState({})], [useState('')], [useState({})], [useState(null)] *)
Definition initialHooks : Hooks :=
  {| formState := ∅; search := EmptyString; formErrors := ∅;
     editingItem := None |}.

(** The calls by which a handler reaches outside the component. *)
Inductive effect : Type :=
| CallValidation (field_key : string) (arg : value)
| CallOnAdd (arg : obj)
| CallOnEdit (item : obj)
| CallOnDelete (id : value)
| CallConfirm (message : string)
| ConsoleError (message : string) (err : value).

#[global] Instance effect_eq_dec : EqDecision effect.
Proof. solve_decision. Defined.

(** A handler is run on the state updates queued so far.  It yields its
    completion (a result, or the value thrown out of it), the queue after
    it and the effects in the order they happened.  An update queued before
    a throw stays queued. *)
Definition M (A : Type) : Type := Hooks -> outcome A * Hooks * list effect.

#[global] Instance M_ret : MRet M := fun A a h => (Ret a, h, []).

#[global] Instance M_bind : MBind M := fun A B f m h =>
  match m h with
  | (Ret a, h', t) =>
      match f a h' with
      | (r, h'', t') => (r, h'', t ++ t')
      end
  | (Throw e, h', t) => (Throw e, h', t)
  end.

(** Calling a function of the caller: the call is recorded, and its
    outcome becomes the outcome of the computation. *)
Definition call {A : Type} (e : effect) (r : outcome A) : M A :=
  fun h => (r, h, [e]).

(** An effect that cannot throw. *)
Definition emit (e : effect) : M unit := fun h => (Ret tt, h, [e]).

(** [try { body } catch (err) { handler(err) }] *)
Definition try_catch (body : M unit) (handler : value -> M unit) : M unit :=
  fun h =>
    match body h with
    | (Ret a, h', t) => (Ret a, h', t)
    | (Throw e, h', t) =>
        match handler e h' with
        | (r, h'', t') => (r, h'', t ++ t')
        end
    end.

(** [setFormState(f)], [setFormErrors(f)]: the functional form; the
    source's [setFormState(v)] is [setFormState (fun _ => v)]. *)
Definition setFormState (f : obj -> obj) : M unit := fun h =>
  (Ret tt,
   {| formState := f (formState h); search := search h;
      formErrors := formErrors h; editingItem := editingItem h |}, []).

Definition setFormErrors (f : obj -> obj) : M unit := fun h =>
  (Ret tt,
   {| formState := formState h; search := search h;
      formErrors := f (formErrors h); editingItem := editingItem h |}, []).

Definition setSearch (s : string) : M unit := fun h =>
  (Ret tt,
   {| formState := formState h; search := s;
      formErrors := formErrors h; editingItem := editingItem h |}, []).

(** Running a handler created by the render that saw the hooks [h]: the
    updates it queues start from [h]. *)
Definition completion {A : Type} (r : outcome A * Hooks * list effect) :
  outcome A := r.1.1.
Definition next {A : Type} (r : outcome A * Hooks * list effect) :
  Hooks := r.1.2.
Definition trace {A : Type} (r : outcome A * Hooks * list effect) :
  list effect := r.2.

(* ===================================================================== *)
(** ** styles.js *)
(* ===================================================================== *)

Definition style (l : list (string * string)) : obj :=
  list_to_map (prod_map id VStr <$> l).

Definition defaultStyles : gmap string obj :=
  list_to_map [
    ("container", style [
       ("fontFamily",
        "-apple-system, BlinkMacSystemFont, " +:+ dquote +:+ "Segoe UI"
          +:+ dquote +:+ ", Roboto, sans-serif");
       ("maxWidth", "1200px");
       ("margin", "0 auto");
       ("padding", "20px");
       ("backgroundColor", "#ffffff");
       ("borderRadius", "8px");
       ("boxShadow", "0 2px 10px rgba(0, 0, 0, 0.1)") ]);
    ("header", style [
       ("display", "flex");
       ("justifyContent", "space-between");
       ("alignItems", "center");
       ("marginBottom", "24px");
       ("paddingBottom", "16px");
       ("borderBottom", "1px solid #e1e5e9") ]);
    ("form", style [
       ("display", "grid");
       ("gridTemplateColumns", "repeat(auto-fit, minmax(200px, 1fr))");
       ("gap", "16px");
       ("marginBottom", "24px");
       ("padding", "20px");
       ("backgroundColor", "#f8f9fa");
       ("borderRadius", "8px");
       ("border", "1px solid #e1e5e9") ]);
    ("formField", style [
       ("display", "flex");
       ("flexDirection", "column");
       ("gap", "8px") ]);
    ("addButton", style [
       ("display", "flex");
       ("alignItems", "center");
       ("gap", "8px");
       ("padding", "12px 24px");
       ("backgroundColor", "#007bff");
       ("color", "white");
       ("border", "none");
       ("borderRadius", "6px");
       ("cursor", "pointer");
       ("fontSize", "14px");
       ("fontWeight", "500");
       ("transition", "background-color 0.2s");
       ("alignSelf", "end") ]);
    ("refreshButton", style [
       ("display", "flex");
       ("alignItems", "center");
       ("gap", "8px");
       ("padding", "8px 16px");
       ("backgroundColor", "#6c757d");
       ("color", "white");
       ("border", "none");
       ("borderRadius", "6px");
       ("cursor", "pointer");
       ("fontSize", "14px");
       ("transition", "background-color 0.2s") ]);
    ("searchBar", style [
       ("display", "flex");
       ("justifyContent", "space-between");
       ("alignItems", "center");
       ("marginBottom", "20px");
       ("gap", "16px") ]);
    ("table", style [
       ("width", "100%");
       ("borderCollapse", "collapse");
       ("backgroundColor", "white");
       ("borderRadius", "8px");
       ("overflow", "hidden");
       ("boxShadow", "0 1px 3px rgba(0, 0, 0, 0.1)") ]);
    ("loading", style [
       ("textAlign", "center");
       ("padding", "40px");
       ("color", "#6c757d");
       ("fontSize", "16px") ]);
    ("empty", style [
       ("textAlign", "center");
       ("padding", "40px");
       ("color", "#6c757d");
       ("fontSize", "16px");
       ("backgroundColor", "#f8f9fa");
       ("borderRadius", "8px");
       ("border", "1px solid #e1e5e9") ])
  ].

(* ===================================================================== *)
(** ** GenericCrudPage.jsx: memoised values *)
(* ===================================================================== *)

(** [{ ...a, ...b }]: the properties of [b] are written after those of
    [a], so [b] wins on a shared property name. *)
Definition spread (a b : obj) : obj := b ∪ a.

(** What [...customStyles[key]] contributes: nothing when the caller gave
    no entry for the region. *)
Definition override_of (customStyles : gmap string obj) (region : string)
  : obj := default ∅ (customStyles !! region).

(** [styles]: one entry per key of [defaultStyles]. *)
Definition styles (customStyles : gmap string obj) : gmap string obj :=
  map_imap
    (fun region dflt => Some (spread dflt (override_of customStyles region)))
    defaultStyles.

(** The callback given to [columns.some] in [filteredData]. *)
Definition columnMatches (search : string) (item : obj) (col : Column)
  : bool :=
  let v := js_read item (col_key col) in
  if is_nullish v then false
  else includes (toLowerCase (ToString v)) (toLowerCase search).

(** [filteredData] *)
Definition filteredData (data : list obj) (search : string)
    (columns : list Column) : list obj :=
  if negb (truthy (VStr (trim search))) then data
  else List.filter
         (fun item => existsb (columnMatches search item) columns) data.

(** The two branches of [filteredData] as one test on a record. *)
Definition keeps (columns : list Column) (search : string) (item : obj)
  : bool :=
  negb (truthy (VStr (trim search)))
  || existsb (columnMatches search item) columns.

(* ===================================================================== *)
(** ** GenericCrudPage.jsx: validation *)
(* ===================================================================== *)

(** [`${field.label}`] *)
Definition label_text (field : FormField) : string :=
  ToString (from_option VStr VUndefined (label field)).

(** The test of the first [if] of [validateField]. *)
Definition required_check_fails (field : FormField) (v : value)
  : bool :=
  required field
  && (negb (truthy v)
      || String.eqb (trim (ToString v)) EmptyString).

(** [validateField(field, value)] *)
Definition validateField (field : FormField) (v : value) : M value :=
  if required_check_fails field v then
    mret (VStr (label_text field +:+ " is required"))
  else
    match validation field with
    | Some validate =>
        validationResult ←
          call (CallValidation (key field) v) (validate v);
        if negb (strict_eq validationResult (VBool true))
        then mret validationResult
        else mret VNull
    | None => mret VNull
    end.

(** [if (error) { errors[field.key] = error; isValid = false; }], on the
    locals [errors] and [isValid] of [validateForm]. *)
Definition note_error (field : FormField) (error : value)
    (acc : obj * bool) : obj * bool :=
  if truthy error then (<[key field := error]> acc.1, false) else acc.

(** The [forEach] of [validateForm]. *)
Fixpoint validateFields (fields : list FormField) (formState : obj)
    (acc : obj * bool) : M (obj * bool) :=
  match fields with
  | [] => mret acc
  | field :: rest =>
      error ← validateField field (js_get formState (key field));
      validateFields rest formState (note_error field error acc)
  end.

(** [validateForm()], in the render that saw the hooks [h]. *)
Definition validateForm (p : Props) (h : Hooks) : M bool :=
  r ← validateFields (formFields p) (formState h) (∅, true);
  setFormErrors (fun _ => r.1);;
  mret r.2.

(* ===================================================================== *)
(** ** GenericCrudPage.jsx: handlers *)
(* ===================================================================== *)

(** A handler is a closure of one render.  What it reads of the state are
    the hooks [h] that render saw, whatever has been queued since; what it
    sets goes to the queue it is run on, which is [h] itself when the
    handler is the first to run after the render. *)

(** [handleFieldChange(fieldKey, value)] *)
Definition handleFieldChange (h : Hooks) (fieldKey : string) (v : value)
  : M unit :=
  setFormState (fun prev => <[fieldKey := v]> prev);;
  if truthy (js_get (formErrors h) fieldKey)
  then setFormErrors (fun prev => <[fieldKey := VNull]> prev)
  else mret tt.

(** [onAdd && onAdd(formState)] and its two siblings. *)
Definition call_if_supplied {A : Type} (callback : option (A -> outcome unit))
    (e : effect) (arg : A) : M unit :=
  match callback with
  | Some f => call e (f arg)
  | None => mret tt
  end.

(** [handleAdd()] *)
Definition handleAdd (p : Props) (h : Hooks) : M unit :=
  isValid ← validateForm p h;
  if negb isValid then mret tt
  else
    try_catch
      (call_if_supplied (onAdd p) (CallOnAdd (formState h)) (formState h);;
       setFormState (fun _ => ∅);;
       setFormErrors (fun _ => ∅))
      (fun err => emit (ConsoleError "Error adding item:" err)).

(** [handleEdit(item)] *)
Definition handleEdit (p : Props) (item : obj) : M unit :=
  try_catch
    (call_if_supplied (onEdit p) (CallOnEdit item) item)
    (fun err => emit (ConsoleError "Error editing item:" err)).

(** The question put to the user before a deletion. *)
Definition delete_question : string :=
  "Are you sure you want to delete this item?".

(** [handleDelete(id)] *)
Definition handleDelete (p : Props) (w : Window) (id : value) : M unit :=
  let confirmMessage :=
    if confirmDelete p then VStr delete_question else VNull in
  declined ←
    (if truthy confirmMessage then
       emit (CallConfirm (ToString confirmMessage));;
       mret (negb (confirm w (ToString confirmMessage)))
     else mret false);
  if (declined : bool) then mret tt
  else
    try_catch
      (call_if_supplied (onDelete p) (CallOnDelete id) id)
      (fun err => emit (ConsoleError "Error deleting item:" err)).

(** [handleFormSubmit(e)]: [e.preventDefault()] touches the event only. *)
Definition handleFormSubmit (p : Props) (h : Hooks) : M unit :=
  handleAdd p h.

(* ===================================================================== *)
(** ** GenericCrudPage.jsx: what the render shows *)
(* ===================================================================== *)

(** [value={formState[field.key] || ''}] of the [select] and the [input]. *)
Definition inputValue (h : Hooks) (field : FormField) : value :=
  js_or (js_get (formState h) (key field)) (VStr EmptyString).

(** The controls of the actions cell of one row, left to right. *)
Inductive control : Type :=
| EditButton (item : obj)
| DeleteButton (id : value)
| CustomActions (node : value).

Definition rowActions (p : Props) (item : obj) : list control :=
  match onEdit p with Some _ => [EditButton item] | None => [] end
  ++ match onDelete p with
     | Some _ => [DeleteButton (js_get item "id")]
     | None => []
     end
  ++ match renderActions p with
     | Some f => [CustomActions (f item)]
     | None => []
     end.

(** The [onClick] of a control. *)
Definition click (p : Props) (w : Window) (c : control) : M unit :=
  match c with
  | EditButton item => handleEdit p item
  | DeleteButton id => handleDelete p w id
  | CustomActions _ => mret tt
  end.

(* ===================================================================== *)
(** ** Reading a trace *)
(* ===================================================================== *)

(** The arguments of the calls to [onAdd], [onDelete] and [onEdit], and
    the errors logged, in order. *)
Definition calls_onAdd (t : list effect) : list obj :=
  omap (fun e => match e with CallOnAdd a => Some a | _ => None end) t.

Definition calls_onEdit (t : list effect) : list obj :=
  omap (fun e => match e with CallOnEdit a => Some a | _ => None end) t.

Definition calls_onDelete (t : list effect) : list value :=
  omap (fun e => match e with CallOnDelete a => Some a | _ => None end) t.

Definition calls_validation (t : list effect) : list (string * value) :=
  omap (fun e => match e with
                 | CallValidation k a => Some (k, a)
                 | _ => None
                 end) t.

Definition logged (t : list effect) : list (string * value) :=
  omap (fun e => match e with
                 | ConsoleError m err => Some (m, err)
                 | _ => None
                 end) t.

(* ===================================================================== *)
(** ** The vocabulary of the specification *)
(* ===================================================================== *)

(** Empty or made of white space only. *)
Definition blank (s : string) : Prop :=
  Forall (fun c => isWhiteSpace c = true) (String.list_ascii_of_string s).

(** The lower-cased [text] has the lower-cased [q] as a piece. *)
Definition lowered_contains (text q : string) : Prop :=
  exists pre post : string,
    toLowerCase text = pre +:+ toLowerCase q +:+ post.

(** Some declared column of [item] reads as a value, neither [null] nor
    [undefined], whose text contains the query once both are
    lower-cased. *)
Definition matches_query (columns : list Column) (q : string) (item : obj)
  : Prop :=
  exists col : Column,
    In col columns
    /\ js_read item (col_key col) <> VUndefined
    /\ js_read item (col_key col) <> VNull
    /\ lowered_contains (ToString (js_read item (col_key col))) q.

(** The pending value of a field is absent, or a blank string. *)
Definition absent_or_blank (v : value) : Prop :=
  v = VUndefined \/ exists s : string, v = VStr s /\ blank s.

(** How [validateField] completes on [field] and its pending value in
    [fs].  The validator neither reads nor queues a state update, so the
    hooks it is run on do not matter ([validateField_run] below). *)
Definition field_result (fs : obj) (field : FormField) : outcome value :=
  completion (validateField field (js_get fs (key field)) initialHooks).

(** Validating [field] yields the error [msg]: [validateField] returns
    [msg], and [validateForm] takes it for an error. *)
Definition field_errs (fs : obj) (field : FormField) (msg : value) : Prop :=
  field_result fs field = Ret msg /\ truthy msg = true.

(** Validating [field] returns, with no error. *)
Definition field_passes (fs : obj) (field : FormField) : Prop :=
  exists r : value, field_result fs field = Ret r /\ truthy r = false.

(** Validating [field] returns: its validation function, if it is called,
    does not throw. *)
Definition field_completes (fs : obj) (field : FormField) : Prop :=
  exists r : value, field_result fs field = Ret r.

(** A trace in which nothing but validation functions were called. *)
Definition only_validation (t : list effect) : Prop :=
  Forall (fun e => exists k a, e = CallValidation k a) t.

(** The hooks after [setFormErrors(errors)], and after the two resets of
    [handleAdd]. *)
Definition with_errors (h : Hooks) (errors : obj) : Hooks :=
  {| formState := formState h; search := search h;
     formErrors := errors; editingItem := editingItem h |}.

Definition after_reset (h : Hooks) : Hooks :=
  {| formState := ∅; search := search h;
     formErrors := ∅; editingItem := editingItem h |}.



(* ===================================================================== *)
(** ** GenericCrudPage.test.jsx: the fixtures of the test suite *)
(* ===================================================================== *)

Definition record (id : Z) (name email : string) : obj :=
  <["id" := VNum id]>
    (<["name" := VStr name]> (<["email" := VStr email]> ∅)).

Definition mockData : list obj :=
  [ record 1 "John Doe" "john@example.com";
    record 2 "Jane Smith" "jane@example.com" ].

Definition column (k l : string) : Column :=
  {| col_key := k; col_label := Some l; col_render := None;
     col_sortable := false |}.

Definition mockColumns : list Column :=
  [ column "name" "Name"; column "email" "Email" ].

(** A required field that declares its key, and possibly a label and a
    type, and nothing else. *)
Definition required_field (k : string) (l : option string)
    (ty : option FieldType) : FormField :=
  {| key := k; label := l; type := ty; placeholder := None;
     required := true; options := []; validation := None;
     defaultValue := None |}.

Definition mockFormFields : list FormField :=
  [ required_field "name" (Some "Name") None;
    required_field "email" (Some "Email") (Some TEmail) ].

(** [jest.fn()]: a callback that returns. *)
Definition jest_fn {A : Type} : option (A -> outcome unit) :=
  Some (fun _ => Ret tt).

Definition defaultProps : Props :=
  {| data := mockData; columns := mockColumns; formFields := mockFormFields;
     onAdd := jest_fn; onEdit := jest_fn; onDelete := jest_fn;
     renderActions := None; customStyles := ∅; confirmDelete := true |}.

(** The [window.confirm] of [setupTests.js], which accepts, and one that
    declines. *)
Definition accepting : Window := {| confirm := fun _ => true |}.
Definition declining : Window := {| confirm := fun _ => false |}.

(** The [customStyles] of the test 'applies custom styles'. *)
Definition red_container : gmap string obj :=
  {[ "container" := {[ "backgroundColor" := VStr "red" ]} ]}.

(** The form after 'New User' and 'new@example.com' were typed in. *)
Definition filled : Hooks :=
  {| formState := {[ "name" := VStr "New User";
                     "email" := VStr "new@example.com" ]};
     search := EmptyString; formErrors := ∅; editingItem := None |}.

(** The two declarations [{key:"name",required:true}] and
    [{key:"email",required:true}], which give no label. *)
Definition unlabelled_fields : list FormField :=
  [ required_field "name" None None; required_field "email" None None ].

(** Two required fields that share the key ["a"]. *)
Definition twin_fields : list FormField :=
  [ required_field "a" (Some "A") None; required_field "a" (Some "B") None ].

(** [defaultProps] with other fields and another [onAdd]. *)
Definition props_with (fields : list FormField)
    (add : option (obj -> outcome unit)) : Props :=
  {| data := mockData; columns := mockColumns; formFields := fields;
     onAdd := add; onEdit := jest_fn; onDelete := jest_fn;
     renderActions := None; customStyles := ∅; confirmDelete := true |}.

(** A callback that throws, and props whose three callbacks do. *)
Definition failing {A : Type} : option (A -> outcome unit) :=
  Some (fun _ => Throw (VStr "save failed")).

Definition failingProps : Props :=
  {| data := mockData; columns := mockColumns; formFields := mockFormFields;
     onAdd := failing; onEdit := failing; onDelete := failing;
     renderActions := None; customStyles := ∅; confirmDelete := true |}.

(** An optional field that declares a default value. *)
Definition defaulted_field (k l : string) (dflt : value) : FormField :=
  {| key := k; label := Some l; type := None; placeholder := None;
     required := false; options := []; validation := None;
     defaultValue := Some dflt |}.

(** A field whose validation function rejects every value, and one whose
    validation function throws. *)
Definition rejecting_field (k l msg : string) (req : bool) : FormField :=
  {| key := k; label := Some l; type := None; placeholder := None;
     required := req; options := [];
     validation := Some (fun _ => Ret (VStr msg));
     defaultValue := None |}.

Definition throwing_field (k l : string) : FormField :=
  {| key := k; label := Some l; type := None; placeholder := None;
     required := false; options := [];
     validation := Some (fun _ => Throw (VStr "TypeError"));
     defaultValue := None |}.

(* ===================================================================== *)
(** ** GenericCrudPage.jsx: the remaining props and the render *)
(* ===================================================================== *)

(** The props that only the render reads, with the defaults of the
    parameter list.  The two icon components and the props spread onto
    the container are left out: they are drawn, never inspected. *)
Record ViewProps : Type := {
  title : string;
  loading : bool;
  error : value;
  onRefresh : option (unit -> outcome unit);
  searchPlaceholder : string;
  emptyMessage : string;
  loadingMessage : string;
  className : string
}.

Definition defaultView (page_title : string) : ViewProps :=
  {| title := page_title; loading := false; error := VNull;
     onRefresh := None; searchPlaceholder := "Search...";
     emptyMessage := "No data to display";
     loadingMessage := "Loading data..."; className := EmptyString |}.

(** [filteredData] in the render that saw the hooks [h]. *)
Definition visible (p : Props) (h : Hooks) : list obj :=
  filteredData (data p) (search h) (columns p).

(** [Total: {filteredData.length}] *)
Definition totalLabel (p : Props) (h : Hooks) : string :=
  "Total: " +:+ ToString (VNum (Z.of_nat (length (visible p h)))).

(** [{error && (...)}]: the banner and its text. *)
Definition errorBanner (v : ViewProps) : option value :=
  if truthy (error v) then Some (error v) else None.

(** [onChange] of the search input. *)
Definition handleSearchChange (text : string) : M unit := setSearch text.

(** [field.type || 'text'] *)
Definition type_attribute (field : FormField) : string :=
  match type field with
  | None | Some TText => "text"
  | Some TEmail => "email"
  | Some TPassword => "password"
  | Some TNumber => "number"
  | Some TSelect => "select"
  | Some TTextarea => "textarea"
  end.

(** The element drawn for a field: a [select] for the type 'select', an
    [input] with the type as its attribute for every other one. *)
Inductive element : Type :=
| SelectElement (choices : list (string * string))
| InputElement (type_attr : string).

(** What the render shows of one field. *)
Record FieldView : Type := {
  fv_id : string;
  fv_label : option string;
  fv_star : bool;
  fv_element : element;
  fv_value : value;
  fv_placeholder : value;
  fv_disabled : bool;
  fv_borderColor : string;
  fv_error : option value
}.

Definition renderField (v : ViewProps) (h : Hooks) (field : FormField)
  : FieldView :=
  let shown_error := js_get (formErrors h) (key field) in
  let given := from_option VStr VUndefined (placeholder field) in
  {| fv_id := key field;
     fv_label := label field;
     fv_star := required field;
     fv_element :=
       match type field with
       | Some TSelect => SelectElement (options field)
       | _ => InputElement (type_attribute field)
       end;
     fv_value := inputValue h field;
     fv_placeholder :=
       match type field with
       | Some TSelect => js_or given (VStr ("Select " +:+ label_text field))
       | _ => js_or given (from_option VStr VUndefined (label field))
       end;
     fv_disabled := loading v;
     fv_borderColor := if truthy shown_error then "#dc3545" else "#ced4da";
     fv_error := if truthy shown_error then Some shown_error else None |}.

(** [col.render ? col.render(item) : item[col.key]] *)
Definition renderCell (item : obj) (col : Column) : value :=
  match col_render col with
  | Some render => render item
  | None => js_read item (col_key col)
  end.

(** [(onEdit || onDelete || renderActions)] *)
Definition has_actions (p : Props) : bool :=
  bool_decide (is_Some (onEdit p))
  || bool_decide (is_Some (onDelete p))
  || bool_decide (is_Some (renderActions p)).

(** One [tr] of the body: its key, its cells, and its actions cell if the
    table has one. *)
Record Row : Type := {
  row_key : value;
  cells : list value;
  actions : option (list control)
}.

Definition renderRow (p : Props) (item : obj) : Row :=
  {| row_key := js_get item "id";
     cells := renderCell item <$> columns p;
     actions := if has_actions p then Some (rowActions p item) else None |}.

(** The [th] cells. *)
Definition renderHead (p : Props) : list (option string) :=
  (col_label <$> columns p)
  ++ (if has_actions p then [Some "Actions"] else []).

(** What stands below the search bar. *)
Inductive tableArea : Type :=
| LoadingMessage (message : string)
| EmptyMessage (message : string)
| Table (head : list (option string)) (rows : list Row).

Definition renderTableArea (p : Props) (v : ViewProps) (h : Hooks)
  : tableArea :=
  if loading v then LoadingMessage (loadingMessage v)
  else if (length (visible p h) =? 0)%nat then
    EmptyMessage (if truthy (VStr (search h)) then "No results found"
                  else emptyMessage v)
  else Table (renderHead p) (renderRow p <$> visible p h).

(** The rows on the screen. *)
Definition rows_of (a : tableArea) : list Row :=
  match a with
  | Table _ rows => rows
  | _ => []
  end.

(** The nodes that [renderActions] produced in a table area, in order. *)
Definition custom_nodes (a : tableArea) : list value :=
  r ← rows_of a;
  c ← default [] (actions r);
  match c with
  | CustomActions node => [node]
  | _ => []
  end.

(** The number of [td] cells of a row. *)
Definition row_width (r : Row) : nat :=
  (length (cells r) + match actions r with Some _ => 1 | None => 0 end)%nat.

(** The controls of the page the user can act on, each with its
    [disabled] attribute.  The buttons of a row have none. *)
Inductive widget : Type :=
| RefreshButton
| FieldControl (field : FormField)
| AddButton
| SearchInput
| RowControl (c : control).

Definition widgets (p : Props) (v : ViewProps) (h : Hooks)
  : list (widget * bool) :=
  match onRefresh v with
  | Some _ => [(RefreshButton, loading v)]
  | None => []
  end
  ++ (if (0 <? length (formFields p))%nat then
        ((fun field => (FieldControl field,
                        fv_disabled (renderField v h field)))
           <$> formFields p)
        ++ match onAdd p with
           | Some _ => [(AddButton, loading v)]
           | None => []
           end
      else [])
  ++ [(SearchInput, loading v)]
  ++ (r ← rows_of (renderTableArea p v h);
      c ← default [] (actions r);
      [(RowControl c, false)]).

(** The pairs of key and pending value that [validateForm] goes through. *)
Definition pending (fs : obj) (fields : list FormField)
  : list (string * value) :=
  (fun field => (key field, js_get fs (key field))) <$> fields.

(** The hooks a handler leaves, when it is run in the render that saw
    [h] with nothing else queued. *)
Definition after (handler : Hooks -> M unit) (h : Hooks) : Hooks :=
  next (handler h h).

(* ===================================================================== *)
(** ** More fixtures *)
(* ===================================================================== *)

(** The view of the test suite, and the same while loading. *)
Definition testView : ViewProps := defaultView "Test Page".

Definition loadingView : ViewProps :=
  {| title := "Test Page"; loading := true; error := VNull;
     onRefresh := None; searchPlaceholder := "Search...";
     emptyMessage := "No data to display";
     loadingMessage := "Loading data..."; className := EmptyString |}.

(** [defaultProps] with the [renderActions] of 'renders custom actions',
    and with no data. *)
Definition customActionProps : Props :=
  {| data := mockData; columns := mockColumns; formFields := mockFormFields;
     onAdd := jest_fn; onEdit := jest_fn; onDelete := jest_fn;
     renderActions := Some (fun _ => VStr "Custom Action");
     customStyles := ∅; confirmDelete := true |}.

Definition emptyProps : Props :=
  {| data := []; columns := mockColumns; formFields := mockFormFields;
     onAdd := jest_fn; onEdit := jest_fn; onDelete := jest_fn;
     renderActions := None; customStyles := ∅; confirmDelete := true |}.

(** The form with the name typed in, the form after a submit attempt on
    no input, and the page with two spaces in the search box. *)
Definition named : Hooks :=
  {| formState := {[ "name" := VStr "New User" ]};
     search := EmptyString; formErrors := ∅; editingItem := None |}.

Definition rejected : Hooks := after (handleAdd defaultProps) initialHooks.

Definition spaced : Hooks :=
  {| formState := ∅; search := "  "; formErrors := ∅;
     editingItem := None |}.

(* ===================================================================== *)
(** ** Tactics *)
(* ===================================================================== *)

(** Unfolding the monad on a run. *)
Ltac run_M :=
  unfold mbind, M_bind, mret, M_ret, call, emit, try_catch,
    setFormErrors, setFormState, call_if_supplied in *.

(* ===================================================================== *)
(** * Facts about strings *)
(* ===================================================================== *)

Section string_facts.
Implicit Types s t q pre mid post : string.

Lemma append_nil_l s : EmptyString +:+ s = s.
Proof. reflexivity. Qed.

Lemma append_cons c s t : String c s +:+ t = String c (s +:+ t).
Proof. reflexivity. Qed.

Lemma toLowerCase_append s t :
  toLowerCase (s +:+ t) = toLowerCase s +:+ toLowerCase t.
Proof.
  induction s as [|c s IH]; [done|].
  rewrite append_cons. simpl. by rewrite IH, append_cons.
Qed.

Lemma startsWith_spec s sub :
  startsWith s sub = true <-> exists post, s = sub +:+ post.
Proof.
  revert s. induction sub as [|a sub IH]; intros s.
  - split; [intros _; by exists s | by destruct s].
  - destruct s as [|b s]; simpl.
    + split; [done | intros [post H]; discriminate].
    + rewrite andb_true_iff, IH. split.
      * intros [Hab [post ->]]. apply Ascii.eqb_eq in Hab as ->.
        by exists post.
      * intros [post H]. rewrite append_cons in H. injection H as -> ->.
        split; [apply Ascii.eqb_refl | by exists post].
Qed.

Lemma includes_nil sub :
  includes EmptyString sub = startsWith EmptyString sub.
Proof. unfold includes. apply orb_false_r. Qed.

Lemma includes_cons c s sub :
  includes (String c s) sub
  = startsWith (String c s) sub || includes s sub.
Proof. reflexivity. Qed.

Lemma includes_spec s sub :
  includes s sub = true <-> exists pre post, s = pre +:+ sub +:+ post.
Proof.
  induction s as [|c s IH].
  - rewrite includes_nil, startsWith_spec. split.
    + intros [post H]. by exists EmptyString, post.
    + intros (pre & post & H). destruct pre; [by exists post|discriminate].
  - rewrite includes_cons, orb_true_iff, IH, startsWith_spec. split.
    + intros [[post H] | (pre & post & ->)].
      * by exists EmptyString, post.
      * by exists (String c pre), post.
    + intros (pre & post & H). destruct pre as [|d pre].
      * left. by exists post.
      * right. rewrite append_cons in H. injection H as -> ->.
        by exists pre, post.
Qed.

(** The test of [filteredData] on one text. *)
Lemma includes_lowered text q :
  includes (toLowerCase text) (toLowerCase q) = true
  <-> lowered_contains text q.
Proof. apply includes_spec. Qed.

Lemma blank_nil : blank EmptyString.
Proof. constructor. Qed.

Lemma blank_cons c s : blank (String c s) <-> isWhiteSpace c = true /\ blank s.
Proof.
  unfold blank. simpl. split.
  - intros H. inversion H; subst. by split.
  - intros [Hc Hs]. by constructor.
Qed.

Lemma trimStart_empty s : trimStart s = EmptyString <-> blank s.
Proof.
  induction s as [|c s IH]; simpl.
  - split; [intros _; apply blank_nil | done].
  - rewrite blank_cons. destruct (isWhiteSpace c).
    + rewrite IH. tauto.
    + split; [discriminate | intros [? _]; discriminate].
Qed.

Lemma trimEnd_empty s : trimEnd s = EmptyString <-> blank s.
Proof.
  induction s as [|c s IH]; simpl.
  - split; [intros _; apply blank_nil | done].
  - rewrite blank_cons, <- IH.
    destruct (trimEnd s); destruct (isWhiteSpace c); split;
      try done; try (intros [? ?]; discriminate).
Qed.

Lemma blank_trimStart s : blank (trimStart s) -> blank s.
Proof.
  induction s as [|c s IH]; simpl; [done|].
  destruct (isWhiteSpace c) eqn:Hc; [|done].
  intros H. apply blank_cons. auto.
Qed.

(** [!s.trim()] holds of the blank strings, and of no other. *)
Lemma trim_empty s : trim s = EmptyString <-> blank s.
Proof.
  unfold trim. rewrite trimEnd_empty. split.
  - apply blank_trimStart.
  - intros H. apply trimStart_empty in H. rewrite H. apply blank_nil.
Qed.

Lemma not_truthy_trim s : negb (truthy (VStr (trim s))) = true <-> blank s.
Proof.
  simpl. rewrite negb_involutive, String.eqb_eq. apply trim_empty.
Qed.

Lemma blank_dec s : {blank s} + {~ blank s}.
Proof.
  destruct (negb (truthy (VStr (trim s)))) eqn:H.
  - left. by apply not_truthy_trim.
  - right. intros Hb. apply not_truthy_trim in Hb. congruence.
Qed.
End string_facts.

(* ===================================================================== *)
(** * The search filter *)
(* ===================================================================== *)

Section search_filter.
Variable columns : list Column.
Variable q : string.

Lemma columnMatches_spec (item : obj) (col : Column) :
  columnMatches q item col = true
  <-> js_read item (col_key col) <> VUndefined
      /\ js_read item (col_key col) <> VNull
      /\ lowered_contains (ToString (js_read item (col_key col))) q.
Proof.
  unfold columnMatches. rewrite <- includes_lowered.
  destruct (js_read item (col_key col)); simpl; split;
    try done; try (intros (? & ? & ?); done); tauto.
Qed.

Lemma some_column_matches (item : obj) :
  existsb (columnMatches q item) columns = true
  <-> matches_query columns q item.
Proof.
  rewrite existsb_exists. unfold matches_query.
  split; intros (col & Hin & H); exists col; split; try done;
    by apply columnMatches_spec.
Qed.

Lemma filteredData_blank (data : list obj) :
  blank q -> filteredData data q columns = data.
Proof.
  intros H. apply not_truthy_trim in H. unfold filteredData. by rewrite H.
Qed.

Lemma filteredData_not_blank (data : list obj) :
  ~ blank q ->
  filteredData data q columns
  = List.filter (fun item => existsb (columnMatches q item) columns) data.
Proof.
  intros H. unfold filteredData.
  destruct (negb (truthy (VStr (trim q)))) eqn:E; [|done].
  by apply not_truthy_trim in E.
Qed.

Lemma filteredData_filter (data : list obj) :
  filteredData data q columns = List.filter (keeps columns q) data.
Proof.
  unfold filteredData, keeps.
  destruct (negb (truthy (VStr (trim q)))); simpl; [|done].
  induction data as [|item data IH]; simpl; [done | by f_equal].
Qed.

Lemma keeps_spec (item : obj) :
  keeps columns q item = true <-> blank q \/ matches_query columns q item.
Proof.
  unfold keeps. by rewrite orb_true_iff, not_truthy_trim, some_column_matches.
Qed.
End search_filter.

Section list_filter.
Context {A : Type} (f : A -> bool).

Lemma filter_twice (l : list A) :
  List.filter f (List.filter f l) = List.filter f l.
Proof.
  induction l as [|x l IH]; simpl; [done|].
  destruct (f x) eqn:E; simpl; [|done]. by rewrite E, IH.
Qed.

Lemma filter_sublist (l : list A) : sublist (List.filter f l) l.
Proof.
  induction l as [|x l IH]; simpl; [constructor|].
  destruct (f x); by constructor.
Qed.
End list_filter.

Lemma columnMatches_nullish (q : string) (item : obj) (col : Column) :
  item !! col_key col = Some VNull
  \/ item !! col_key col = Some VUndefined
  \/ (item !! col_key col = None /\ inherited (col_key col) = None) ->
  columnMatches q item col = false.
Proof.
  unfold columnMatches, js_read.
  by intros [-> | [-> | [-> ->]]].
Qed.

(** C1 (as amended).  On an empty or white-space query the view is the
    collection itself.  On any other query the view holds exactly the
    records of the collection in which some declared column reads, as
    [item[col.key]] does, as a value that is neither null nor undefined and
    whose text contains the query once both are lower-cased; it holds them
    as a filter of the collection does, each as often and in the order it
    occurs there.  A column never matches on a record that holds null for
    it, or that holds nothing for it when its key is not the name of an
    inherited property, whatever the other columns hold.  The hypothesis
    says that the numbers of the records are written as [VNum] is meant,
    as safe integers. *)
Theorem filteredData_spec (data : list obj) (columns : list Column)
    (q : string) :
  safe_data data = true ->
  (exists keep : obj -> bool,
      (forall item, keep item = true
                    <-> blank q \/ matches_query columns q item)
      /\ filteredData data q columns = List.filter keep data)
  /\ (forall item,
        In item (filteredData data q columns)
        <-> In item data /\ (blank q \/ matches_query columns q item))
  /\ (forall item col,
        item !! col_key col = Some VNull
        \/ item !! col_key col = Some VUndefined
        \/ (item !! col_key col = None /\ inherited (col_key col) = None) ->
        columnMatches q item col = false)
  /\ (blank q -> filteredData data q columns = data).
Proof.
  intros _. split; [|split; [|split]].
  - exists (keeps columns q). split.
    + apply keeps_spec.
    + apply filteredData_filter.
  - intros item. rewrite filteredData_filter, filter_In, keeps_spec. tauto.
  - apply columnMatches_nullish.
  - apply filteredData_blank.
Qed.

(** C7.  Filtering the filtered view by the same query changes nothing;
    the view is a sublist of the collection, so its records keep their
    relative order; an empty or white-space query gives the collection
    back. *)
Theorem filteredData_idempotent (data : list obj) (columns : list Column)
    (q : string) :
  filteredData (filteredData data q columns) q columns
  = filteredData data q columns
  /\ sublist (filteredData data q columns) data
  /\ (forall item, In item (filteredData data q columns) -> In item data)
  /\ (blank q -> filteredData data q columns = data).
Proof.
  rewrite !filteredData_filter. split; [|split; [|split]].
  - apply filter_twice.
  - apply filter_sublist.
  - intros item H. by apply filter_In in H as [H _].
  - intros H. rewrite <- filteredData_filter. by apply filteredData_blank.
Qed.

(* ===================================================================== *)
(** * The style resolver *)
(* ===================================================================== *)

Lemma spread_lookup (a b : obj) (prop : string) :
  spread a b !! prop
  = match b !! prop with
    | Some v => Some v
    | None => a !! prop
    end.
Proof.
  unfold spread. rewrite lookup_union. by destruct (b !! prop), (a !! prop).
Qed.

Lemma styles_lookup (customStyles : gmap string obj) (region : string) :
  styles customStyles !! region
  = (fun dflt => spread dflt (override_of customStyles region))
      <$> defaultStyles !! region.
Proof.
  unfold styles. rewrite map_lookup_imap. by destruct (defaultStyles !! region).
Qed.

(** C8.  The resolved styles have the regions of the defaults and no
    other.  In each, a property reads as the caller's override gives it
    when the override for the region has that property, whatever the value
    is, and as the default gives it otherwise. *)
Theorem styles_spec (customStyles : gmap string obj) (region : string) :
  (is_Some (styles customStyles !! region)
   <-> is_Some (defaultStyles !! region))
  /\ (forall dflt : obj,
        defaultStyles !! region = Some dflt ->
        exists resolved : obj,
          styles customStyles !! region = Some resolved
          /\ resolved = spread dflt (override_of customStyles region)
          /\ forall prop : string,
               resolved !! prop
               = match customStyles !! region with
                 | Some override =>
                     match override !! prop with
                     | Some v => Some v
                     | None => dflt !! prop
                     end
                 | None => dflt !! prop
                 end).
Proof.
  split.
  - rewrite styles_lookup. by rewrite fmap_is_Some.
  - intros dflt Hd. eexists. rewrite styles_lookup, Hd. simpl.
    split; [done|]. split; [done|]. intros prop.
    rewrite spread_lookup. unfold override_of.
    destruct (customStyles !! region) as [override|]; simpl; [done|].
    by rewrite lookup_empty.
Qed.

(* ===================================================================== *)
(** * Validation of one field *)
(* ===================================================================== *)

Lemma validateField_run (field : FormField) (v : value) (h : Hooks) :
  validateField field v h
  = (completion (validateField field v initialHooks), h,
     trace (validateField field v initialHooks)).
Proof.
  unfold validateField.
  destruct (required_check_fails field v); [done|].
  destruct (validation field) as [validate|]; [|done].
  run_M. destruct (validate v) as [r|e]; [|done].
  by destruct (negb (strict_eq r (VBool true))).
Qed.

(** On a pending value that is a string or absent, which is what an input
    control leaves in the form state, the first test of [validateField]
    is the one the specification words. *)
Lemma required_check_fails_pending (field : FormField) (v : value) :
  absent_or_blank v ->
  required_check_fails field v = required field.
Proof.
  unfold required_check_fails.
  intros [-> | (s & -> & Hs)]; simpl.
  - by rewrite andb_true_r.
  - apply trim_empty in Hs. rewrite Hs. simpl.
    by rewrite orb_true_r, andb_true_r.
Qed.


Lemma validateField_required (field : FormField) (v : value) (h : Hooks) :
  required_check_fails field v = true ->
  validateField field v h
  = (Ret (VStr (label_text field +:+ " is required")), h, []).
Proof. intros H. unfold validateField. by rewrite H. Qed.

Lemma validateField_only_validation (field : FormField) (v : value)
    (h : Hooks) :
  only_validation (trace (validateField field v h)).
Proof.
  unfold validateField, only_validation.
  destruct (required_check_fails field v); [constructor|].
  destruct (validation field) as [validate|]; [|constructor].
  run_M. destruct (validate v) as [r|e].
  - destruct (negb (strict_eq r (VBool true))); simpl;
      (constructor; [by eexists _, _ | constructor]).
  - simpl. constructor; [by eexists _, _ | constructor].
Qed.

(* ===================================================================== *)
(** * Validation of the form *)
(* ===================================================================== *)

Section traces.
Lemma only_validation_app (t t' : list effect) :
  only_validation t -> only_validation t' -> only_validation (t ++ t').
Proof. apply Forall_app_2. Qed.

Lemma only_validation_silent (t : list effect) :
  only_validation t ->
  calls_onAdd t = [] /\ calls_onEdit t = [] /\ calls_onDelete t = []
  /\ logged t = [].
Proof.
  unfold only_validation.
  induction 1 as [|e t He _ IH]; [done|].
  destruct He as (k & a & ->).
  unfold calls_onAdd, calls_onEdit, calls_onDelete, logged in *.
  simpl. tauto.
Qed.

Lemma calls_onAdd_app (t t' : list effect) :
  calls_onAdd (t ++ t') = calls_onAdd t ++ calls_onAdd t'.
Proof. apply omap_app. Qed.

Lemma logged_app (t t' : list effect) :
  logged (t ++ t') = logged t ++ logged t'.
Proof. apply omap_app. Qed.
End traces.

Section form_validation.
Variable fs : obj.

Lemma validateFields_cons (field : FormField) (rest : list FormField)
    (acc : obj * bool) (h : Hooks) :
  validateFields (field :: rest) fs acc h
  = match field_result fs field with
    | Ret error =>
        match validateFields rest fs (note_error field error acc) h with
        | (r, h', t') =>
            (r, h',
             trace (validateField field (js_get fs (key field))
                      initialHooks) ++ t')
        end
    | Throw e =>
        (Throw e, h,
         trace (validateField field (js_get fs (key field)) initialHooks))
    end.
Proof.
  cbn [validateFields]. unfold mbind, M_bind at 1.
  rewrite (validateField_run _ _ h). fold (field_result fs field).
  by destruct (field_result fs field).
Qed.

(** The fold queues no state update, and calls validation functions
    only. *)
Lemma validateFields_next (fields : list FormField) :
  forall acc h, next (validateFields fields fs acc h) = h.
Proof.
  induction fields as [|field rest IH]; intros acc h; [done|].
  rewrite validateFields_cons.
  destruct (field_result fs field) as [error|e]; [|done].
  specialize (IH (note_error field error acc) h).
  by destruct (validateFields rest fs _ h) as [[r h'] t'].
Qed.

Lemma validateFields_only_validation (fields : list FormField) :
  forall acc h, only_validation (trace (validateFields fields fs acc h)).
Proof.
  induction fields as [|field rest IH]; intros acc h; [constructor|].
  rewrite validateFields_cons.
  pose proof (validateField_only_validation field (js_get fs (key field))
                initialHooks) as Hf.
  destruct (field_result fs field) as [error|e]; [|done].
  specialize (IH (note_error field error acc) h).
  destruct (validateFields rest fs _ h) as [[r h'] t'].
  by apply only_validation_app.
Qed.

(** When every field passes, the locals are left as they were. *)
Lemma validateFields_pass (fields : list FormField) :
  Forall (field_passes fs) fields ->
  forall acc h, completion (validateFields fields fs acc h) = Ret acc.
Proof.
  induction 1 as [|field rest (r & Hr & Hfalsy) _ IH]; intros acc h;
    [done|].
  rewrite validateFields_cons, Hr. unfold note_error. rewrite Hfalsy.
  specialize (IH acc h).
  by destruct (validateFields rest fs acc h) as [[r' h'] t'].
Qed.

(** [isValid], once false, stays false. *)
Lemma validateFields_stays_invalid (fields : list FormField) :
  forall errors0 h errors ok,
    completion (validateFields fields fs (errors0, false) h)
    = Ret (errors, ok) ->
    ok = false.
Proof.
  induction fields as [|field rest IH]; intros errors0 h errors ok.
  - cbn. congruence.
  - rewrite validateFields_cons.
    destruct (field_result fs field) as [error|e]; [|done].
    unfold note_error. destruct (truthy error); simpl.
    + specialize (IH (<[key field := error]> errors0) h errors ok).
      by destruct (validateFields rest fs _ h) as [[r' h'] t'].
    + specialize (IH errors0 h errors ok).
      by destruct (validateFields rest fs _ h) as [[r' h'] t'].
Qed.

(** One erring field makes the form invalid, if the fold returns at
    all. *)
Lemma validateFields_invalid (fields : list FormField) :
  forall acc h errors ok field msg,
    In field fields -> field_errs fs field msg ->
    completion (validateFields fields fs acc h) = Ret (errors, ok) ->
    ok = false.
Proof.
  induction fields as [|f rest IH];
    intros acc h errors ok field msg Hin [Hres Hmsg]; [done|].
  rewrite validateFields_cons.
  destruct (field_result fs f) as [error|e] eqn:Hf; [|done].
  destruct Hin as [-> | Hin].
  - assert (error = msg) as -> by congruence.
    unfold note_error. rewrite Hmsg. intros H.
    apply (validateFields_stays_invalid rest
             (<[key field := msg]> acc.1) h errors ok).
    by destruct (validateFields rest fs _ h) as [[r' h'] t'].
  - intros H.
    apply (IH (note_error f error acc) h errors ok field msg Hin);
      [done|].
    by destruct (validateFields rest fs _ h) as [[r' h'] t'].
Qed.

(** The fold returns exactly when every field's validation returns. *)
Lemma validateFields_completes (fields : list FormField) :
  Forall (field_completes fs) fields ->
  forall acc h, exists r, completion (validateFields fields fs acc h) = Ret r.
Proof.
  induction 1 as [|field rest (r & Hr) _ IH]; intros acc h;
    [by eexists|].
  rewrite validateFields_cons, Hr.
  destruct (IH (note_error field r acc) h) as [r' Hr'].
  exists r'. by destruct (validateFields rest fs _ h) as [[r'' h'] t'].
Qed.

(** With distinct keys, each erring field finds its message under its
    key, and the other keys are as before. *)
Lemma validateFields_errors (fields : list FormField) :
  NoDup (key <$> fields) ->
  forall acc h errors ok,
    completion (validateFields fields fs acc h) = Ret (errors, ok) ->
    (forall field msg,
        In field fields -> field_errs fs field msg ->
        errors !! key field = Some msg)
    /\ (forall k, ~ In k (key <$> fields) -> errors !! k = acc.1 !! k).
Proof.
  induction fields as [|f rest IH]; intros Hnd acc h errors ok.
  - cbn. intros [= ->]. by split.
  - rewrite fmap_cons in Hnd. apply NoDup_cons in Hnd as [Hf Hnd].
    rewrite validateFields_cons.
    destruct (field_result fs f) as [error|e] eqn:Hres; [|done].
    intros H.
    destruct (IH Hnd (note_error f error acc) h errors ok) as [IH1 IH2].
    { by destruct (validateFields rest fs _ h) as [[r' h'] t']. }
    split.
    + intros field msg [-> | Hin] Herr.
      * destruct Herr as [Hres' Hmsg].
        assert (error = msg) as -> by congruence.
        rewrite IH2 by (by rewrite <- list_elem_of_In).
        unfold note_error. rewrite Hmsg. simpl. apply lookup_insert_eq.
      * by apply IH1.
    + intros k Hk. rewrite fmap_cons in Hk.
      rewrite IH2 by (intros Hk'; apply Hk; by right).
      unfold note_error. destruct (truthy error); [|done]. simpl.
      apply lookup_insert_ne. intros Heq. apply Hk. by left.
Qed.

(** Whatever the keys, an entry of the error state is the message of an
    erring field with that key, unless it was there before. *)
Lemma validateFields_provenance (fields : list FormField) :
  forall acc h errors ok k m,
    completion (validateFields fields fs acc h) = Ret (errors, ok) ->
    errors !! k = Some m ->
    acc.1 !! k = Some m
    \/ exists field, In field fields /\ key field = k
                     /\ field_errs fs field m.
Proof.
  induction fields as [|f rest IH]; intros acc h errors ok k m.
  - cbn. intros [= ->]. by left.
  - rewrite validateFields_cons.
    destruct (field_result fs f) as [error|e] eqn:Hres; [|done].
    intros H Hk.
    destruct (IH (note_error f error acc) h errors ok k m)
      as [Hacc | (field & Hin & Hkey & Herr)]; [|done| |].
    { by destruct (validateFields rest fs _ h) as [[r' h'] t']. }
    + unfold note_error in Hacc.
      destruct (truthy error) eqn:Ht; [|by left]. simpl in Hacc.
      destruct (decide (key f = k)) as [<- | Hne].
      * rewrite lookup_insert_eq in Hacc. injection Hacc as ->.
        right. exists f. split; [by left|]. by split.
      * rewrite lookup_insert_ne in Hacc by done. by left.
    + right. exists field. split; [by right | done].
Qed.

(** An entry, once written, is never removed. *)
Lemma validateFields_keeps_entries (fields : list FormField) :
  forall acc h errors ok k,
    completion (validateFields fields fs acc h) = Ret (errors, ok) ->
    is_Some (acc.1 !! k) -> is_Some (errors !! k).
Proof.
  induction fields as [|f rest IH]; intros acc h errors ok k.
  - cbn. by intros [= ->].
  - rewrite validateFields_cons.
    destruct (field_result fs f) as [error|e] eqn:Hres; [|done].
    intros H Hk.
    apply (IH (note_error f error acc) h errors ok k).
    { by destruct (validateFields rest fs _ h) as [[r' h'] t']. }
    unfold note_error. destruct (truthy error); [|done]. simpl.
    rewrite lookup_insert. case_decide; [by eexists | done].
Qed.

(** So every erring field has an entry under its key. *)
Lemma validateFields_shows_error (fields : list FormField) :
  forall acc h errors ok field msg,
    In field fields -> field_errs fs field msg ->
    completion (validateFields fields fs acc h) = Ret (errors, ok) ->
    is_Some (errors !! key field).
Proof.
  induction fields as [|f rest IH];
    intros acc h errors ok field msg Hin Herr; [done|].
  rewrite validateFields_cons.
  destruct (field_result fs f) as [error|e] eqn:Hf; [|done].
  intros H.
  assert (completion (validateFields rest fs (note_error f error acc) h)
          = Ret (errors, ok)) as Hrest.
  { by destruct (validateFields rest fs _ h) as [[r' h'] t']. }
  destruct Hin as [-> | Hin].
  - apply (validateFields_keeps_entries _ _ _ _ _ _ Hrest).
    destruct Herr as [Hres Hmsg].
    assert (error = msg) as -> by congruence.
    unfold note_error. rewrite Hmsg. simpl.
    rewrite lookup_insert_eq. by eexists.
  - by apply (IH _ _ _ _ _ _ Hin Herr Hrest).
Qed.
End form_validation.

(* ===================================================================== *)
(** * Submitting the form *)
(* ===================================================================== *)

(** [handleAdd], case by case on the fold of [validateForm] and on what
    [onAdd] does. *)
Lemma handleAdd_run (p : Props) (h h0 : Hooks) :
  handleAdd p h h0
  = match validateFields (formFields p) (formState h) (∅, true) h0 with
    | (Throw e, h', t) => (Throw e, h', t)
    | (Ret (errors, ok), h', t) =>
        if ok then
          match onAdd p with
          | Some f =>
              match f (formState h) with
              | Ret _ =>
                  (Ret tt, after_reset h', t ++ [CallOnAdd (formState h)])
              | Throw e =>
                  (Ret tt, with_errors h' errors,
                   t ++ [CallOnAdd (formState h);
                         ConsoleError "Error adding item:" e])
              end
          | None => (Ret tt, after_reset h', t)
          end
        else (Ret tt, with_errors h' errors, t)
    end.
Proof.
  unfold handleAdd, validateForm. run_M.
  destruct (validateFields (formFields p) (formState h) (∅, true) h0)
    as [[[[errors ok]|e] h'] t]; simpl; [|done].
  destruct ok; simpl; [|by rewrite !app_nil_r].
  destruct (onAdd p) as [f|]; simpl.
  - destruct (f (formState h)) as [[]|e]; simpl; by rewrite ?app_nil_r.
  - by rewrite !app_nil_r.
Qed.

(** The fold, as a triple. *)
Lemma validateFields_triple (fs : obj) (fields : list FormField)
    (acc : obj * bool) (h : Hooks) :
  validateFields fields fs acc h
  = (completion (validateFields fields fs acc h), h,
     trace (validateFields fields fs acc h)).
Proof.
  pose proof (validateFields_next fs fields acc h) as Hn.
  destruct (validateFields fields fs acc h) as [[r h'] t].
  unfold next in Hn. simpl in *. by subst.
Qed.

(** C2 (as amended).  When the validation of every declared field returns
    with no error, a submit attempt completes and leaves the error state
    empty.  Without an [onAdd] nothing is called, and the pending values
    are reset.  With one, it is called once, on the mapping of pending
    values; if it returns, the pending values are reset and nothing is
    logged; if it throws, the pending values stay as they were and the
    error is logged. *)
Theorem handleAdd_valid (p : Props) (h h0 : Hooks) :
  Forall (field_passes (formState h)) (formFields p) ->
  completion (handleAdd p h h0) = Ret tt
  /\ formErrors (next (handleAdd p h h0)) = ∅
  /\ match onAdd p with
     | None =>
         calls_onAdd (trace (handleAdd p h h0)) = []
         /\ formState (next (handleAdd p h h0)) = ∅
     | Some f =>
         calls_onAdd (trace (handleAdd p h h0)) = [formState h]
         /\ match f (formState h) with
            | Ret _ =>
                formState (next (handleAdd p h h0)) = ∅
                /\ logged (trace (handleAdd p h h0)) = []
            | Throw e =>
                formState (next (handleAdd p h h0)) = formState h0
                /\ logged (trace (handleAdd p h h0))
                   = [("Error adding item:", e)]
            end
     end.
Proof.
  intros Hpass. rewrite handleAdd_run, validateFields_triple.
  rewrite (validateFields_pass _ _ Hpass).
  pose proof (validateFields_only_validation (formState h) (formFields p)
                (∅, true) h0) as Ht.
  apply only_validation_silent in Ht as (Hadd & _ & _ & Hlog).
  destruct (onAdd p) as [f|]; [|by simpl].
  destruct (f (formState h)) as [[]|e]; simpl;
    rewrite calls_onAdd_app, logged_app, Hadd, Hlog; by simpl.
Qed.

(** C3 (as amended).  When some declared field errs, a submit attempt
    never calls [onAdd] and leaves the pending values alone.  If moreover
    the validation of every field returns, the attempt completes, every
    entry of the error state is the message of an erring field, and every
    erring field has an entry under its key: its own message when no other
    field has its key. *)
Theorem handleAdd_invalid (p : Props) (h h0 : Hooks) :
  (exists field msg,
      In field (formFields p) /\ field_errs (formState h) field msg) ->
  calls_onAdd (trace (handleAdd p h h0)) = []
  /\ formState (next (handleAdd p h h0)) = formState h0
  /\ (Forall (field_completes (formState h)) (formFields p) ->
      completion (handleAdd p h h0) = Ret tt
      /\ (forall k m,
            formErrors (next (handleAdd p h h0)) !! k = Some m ->
            exists field,
              In field (formFields p) /\ key field = k
              /\ field_errs (formState h) field m)
      /\ (forall field msg,
            In field (formFields p) ->
            field_errs (formState h) field msg ->
            is_Some (formErrors (next (handleAdd p h h0)) !! key field))
      /\ (NoDup (key <$> formFields p) ->
          forall field msg,
            In field (formFields p) ->
            field_errs (formState h) field msg ->
            formErrors (next (handleAdd p h h0)) !! key field = Some msg)).
Proof.
  intros (field & msg & Hin & Herr).
  rewrite handleAdd_run, validateFields_triple.
  pose proof (validateFields_only_validation (formState h) (formFields p)
                (∅, true) h0) as Ht.
  apply only_validation_silent in Ht as (Hadd & _ & _ & Hlog).
  destruct (completion (validateFields (formFields p) (formState h)
                          (∅, true) h0)) as [[errors ok]|e] eqn:Hc.
  - assert (ok = false) as -> by eauto using validateFields_invalid.
    simpl. split; [done|]. split; [done|]. intros _.
    split; [done|]. split; [|split].
    + intros k m Hk.
      destruct (validateFields_provenance _ _ _ _ _ _ k m Hc Hk)
        as [Hempty | H]; [|done].
      simpl in Hempty. by rewrite lookup_empty in Hempty.
    + intros f m Hf Hferr.
      by apply (validateFields_shows_error _ _ _ _ _ _ _ _ Hf Hferr Hc).
    + intros Hnd f m Hf Hferr.
      by apply (validateFields_errors _ _ Hnd _ _ _ _ Hc).
  - simpl. split; [done|]. split; [done|]. intros Hall.
    destruct (validateFields_completes _ _ Hall (∅, true) h0) as [r Hr].
    congruence.
Qed.

(** Typing into a field stores the value and, if the field shows an
    error, overwrites that error with [null]; the other errors stay. *)
Lemma handleFieldChange_run (h h0 : Hooks) (fieldKey : string) (v : value) :
  handleFieldChange h fieldKey v h0
  = (Ret tt,
     {| formState := <[fieldKey := v]> (formState h0);
        search := search h0;
        formErrors :=
          if truthy (js_get (formErrors h) fieldKey)
          then <[fieldKey := VNull]> (formErrors h0)
          else formErrors h0;
        editingItem := editingItem h0 |},
     []).
Proof.
  unfold handleFieldChange. run_M.
  by destruct (truthy (js_get (formErrors h) fieldKey)).
Qed.

(* ===================================================================== *)
(** * Row actions *)
(* ===================================================================== *)

Lemma handleEdit_run (p : Props) (item : obj) (h0 : Hooks) :
  handleEdit p item h0
  = match onEdit p with
    | Some f =>
        match f item with
        | Ret _ => (Ret tt, h0, [CallOnEdit item])
        | Throw e =>
            (Ret tt, h0,
             [CallOnEdit item; ConsoleError "Error editing item:" e])
        end
    | None => (Ret tt, h0, [])
    end.
Proof.
  unfold handleEdit. run_M. destruct (onEdit p) as [f|]; [|done].
  by destruct (f item) as [[]|e].
Qed.

Lemma handleDelete_run (p : Props) (w : Window) (id : value) (h0 : Hooks) :
  handleDelete p w id h0
  = let asked :=
      if confirmDelete p then [CallConfirm delete_question] else [] in
    if confirmDelete p && negb (confirm w delete_question)
    then (Ret tt, h0, asked)
    else
      match onDelete p with
      | Some f =>
          match f id with
          | Ret _ => (Ret tt, h0, asked ++ [CallOnDelete id])
          | Throw e =>
              (Ret tt, h0,
               asked ++ [CallOnDelete id;
                         ConsoleError "Error deleting item:" e])
          end
      | None => (Ret tt, h0, asked)
      end.
Proof.
  unfold handleDelete. run_M.
  destruct (confirmDelete p); simpl.
  - destruct (confirm w delete_question); simpl; [|done].
    destruct (onDelete p) as [f|]; [|done].
    by destruct (f id) as [[]|e].
  - destruct (onDelete p) as [f|]; [|done].
    by destruct (f id) as [[]|e].
Qed.

Lemma delete_button_rendered (p : Props) (item : obj) (id : value) :
  In (DeleteButton id) (rowActions p item)
  <-> is_Some (onDelete p) /\ id = js_get item "id".
Proof.
  unfold rowActions. rewrite !in_app_iff.
  destruct (onEdit p), (onDelete p), (renderActions p); simpl;
    split; intros H;
    repeat match goal with
      | H : _ \/ _ |- _ => destruct H
      | H : _ /\ _ |- _ => destruct H
      | H : is_Some None |- _ => by destruct H
      | H : False |- _ => destruct H
      | H : _ = _ |- _ => first [discriminate H | injection H as <-]
      end;
    try done; try (split; [by eexists | done]); subst; tauto.
Qed.

Lemma handleDelete_calls (p : Props) (w : Window) (id : value) (h0 : Hooks)
    (f : value -> outcome unit) :
  onDelete p = Some f ->
  calls_onDelete (trace (handleDelete p w id h0))
  = if confirmDelete p && negb (confirm w delete_question) then [] else [id].
Proof.
  intros Hf. rewrite handleDelete_run, Hf.
  by destruct (confirmDelete p), (confirm w delete_question),
    (f id) as [[]|e].
Qed.

Lemma handleDelete_asks (p : Props) (w : Window) (id : value) (h0 : Hooks) :
  In (CallConfirm delete_question) (trace (handleDelete p w id h0))
  <-> confirmDelete p = true.
Proof.
  rewrite handleDelete_run.
  destruct (confirmDelete p) eqn:Hc; simpl.
  - split; [done|]. intros _.
    destruct (negb (confirm w delete_question)); [by left|].
    destruct (onDelete p) as [f|]; [|by left].
    destruct (f id); by left.
  - split; [|done]. intros H.
    destruct (onDelete p) as [f|]; [|done].
    destruct (f id); simpl in H; repeat (destruct H as [H | H]; try done).
Qed.

(** C5.  The delete button of a row carries the [id] of its record.  When
    it is clicked with [confirmDelete] set and the user declines, [onDelete]
    is not called.  When the user accepts, or [confirmDelete] is not set,
    [onDelete] is called once, on that [id].  The user is asked exactly
    when [confirmDelete] is set. *)
Theorem handleDelete_spec (p : Props) (w : Window) (item : obj) (id : value)
    (h0 : Hooks) :
  In (DeleteButton id) (rowActions p item) ->
  id = js_get item "id"
  /\ click p w (DeleteButton id) h0 = handleDelete p w id h0
  /\ (confirmDelete p = true /\ confirm w delete_question = false ->
      calls_onDelete (trace (handleDelete p w id h0)) = [])
  /\ (confirmDelete p = false \/ confirm w delete_question = true ->
      calls_onDelete (trace (handleDelete p w id h0)) = [id])
  /\ (In (CallConfirm delete_question) (trace (handleDelete p w id h0))
      <-> confirmDelete p = true).
Proof.
  intros Hbutton. apply delete_button_rendered in Hbutton as [[f Hf] Hid].
  split; [done|]. split; [done|].
  rewrite (handleDelete_calls _ _ _ _ _ Hf).
  split; [|split].
  - by intros [-> ->].
  - intros [-> | ->]; [done|]. by rewrite andb_false_r.
  - apply handleDelete_asks.
Qed.

(* ===================================================================== *)
(** * The failure boundary around the callbacks *)
(* ===================================================================== *)

(** C6.  [handleEdit] and [handleDelete] always complete normally, and
    [handleAdd] completes normally whenever it got as far as calling
    [onAdd].  A callback that throws when called was called once, and what
    it threw was logged once, after the call. *)
Theorem callback_errors_caught (p : Props) (w : Window) (h h0 : Hooks)
    (e : value) :
  (forall f, onAdd p = Some f -> f (formState h) = Throw e ->
     calls_onAdd (trace (handleAdd p h h0)) <> [] ->
     completion (handleAdd p h h0) = Ret tt
     /\ calls_onAdd (trace (handleAdd p h h0)) = [formState h]
     /\ logged (trace (handleAdd p h h0)) = [("Error adding item:", e)]
     /\ exists t, trace (handleAdd p h h0)
                  = t ++ [CallOnAdd (formState h);
                          ConsoleError "Error adding item:" e])
  /\ (forall f item, onEdit p = Some f -> f item = Throw e ->
        handleEdit p item h0
        = (Ret tt, h0,
           [CallOnEdit item; ConsoleError "Error editing item:" e]))
  /\ (forall f id, onDelete p = Some f -> f id = Throw e ->
        completion (handleDelete p w id h0) = Ret tt
        /\ (calls_onDelete (trace (handleDelete p w id h0)) <> [] ->
            calls_onDelete (trace (handleDelete p w id h0)) = [id]
            /\ logged (trace (handleDelete p w id h0))
               = [("Error deleting item:", e)]
            /\ exists t, trace (handleDelete p w id h0)
                         = t ++ [CallOnDelete id;
                                 ConsoleError "Error deleting item:" e]))
  /\ (forall item, completion (handleEdit p item h0) = Ret tt)
  /\ (forall id, completion (handleDelete p w id h0) = Ret tt).
Proof.
  split; [|split; [|split; [|split]]].
  - intros f Hf Hthrow. rewrite handleAdd_run, validateFields_triple, Hf, Hthrow.
    pose proof (validateFields_only_validation (formState h) (formFields p)
                  (∅, true) h0) as Ht.
    apply only_validation_silent in Ht as (Hadd & _ & _ & Hlog).
    destruct (completion (validateFields (formFields p) (formState h)
                            (∅, true) h0)) as [[errors [|]]|e'];
      simpl; try done.
    intros _. rewrite calls_onAdd_app, logged_app, Hadd, Hlog.
    repeat split; try done. by eexists.
  - intros f item Hf Hthrow. by rewrite handleEdit_run, Hf, Hthrow.
  - intros f id Hf Hthrow. rewrite handleDelete_run, Hf, Hthrow.
    destruct (confirmDelete p), (confirm w delete_question); simpl;
      (split; [done|]); try done; intros _;
      (split; [done|]); (split; [done|]).
    + by exists [CallConfirm delete_question].
    + by exists [].
    + by exists [].
  - intros item. rewrite handleEdit_run.
    destruct (onEdit p) as [f|]; [|done]. by destruct (f item).
  - intros id. rewrite handleDelete_run.
    destruct (confirmDelete p), (confirm w delete_question),
      (onDelete p) as [f|]; simpl; try done; by destruct (f id).
Qed.

(* ===================================================================== *)
(** * The scenario of the two required fields *)
(* ===================================================================== *)

Lemma field_result_required (fs : obj) (field : FormField) :
  required field = true ->
  absent_or_blank (js_get fs (key field)) ->
  field_result fs field = Ret (VStr (label_text field +:+ " is required")).
Proof.
  intros Hr Hv. unfold field_result.
  rewrite validateField_required; [done|].
  by rewrite required_check_fails_pending.
Qed.

(** C9 (as amended).  With the two fields declared as the test suite
    declares them, required, keyed "name" and "email" and labelled "Name"
    and "Email", a submit attempt with both pending values absent or blank
    leaves exactly the two messages in the error state, and [onAdd] is not
    called. *)
Theorem two_required_fields_blank (p : Props) (h h0 : Hooks)
    (name email : FormField) :
  formFields p = [name; email] ->
  key name = "name" -> label name = Some "Name" -> required name = true ->
  key email = "email" -> label email = Some "Email" ->
  required email = true ->
  absent_or_blank (js_get (formState h) "name") ->
  absent_or_blank (js_get (formState h) "email") ->
  formErrors (next (handleAdd p h h0))
  = {[ "name" := VStr "Name is required";
       "email" := VStr "Email is required" ]}
  /\ calls_onAdd (trace (handleAdd p h h0)) = []
  /\ completion (handleAdd p h h0) = Ret tt.
Proof.
  intros Hfields Hk1 Hl1 Hr1 Hk2 Hl2 Hr2 Hv1 Hv2.
  rewrite handleAdd_run, Hfields.
  rewrite validateFields_cons, field_result_required
    by (done || by rewrite Hk1).
  rewrite validateFields_cons, field_result_required
    by (done || by rewrite Hk2).
  rewrite !validateField_required
    by (rewrite required_check_fails_pending; (done || by rewrite ?Hk1, ?Hk2)).
  unfold label_text. rewrite Hl1, Hl2. unfold note_error.
  rewrite Hk1, Hk2. by vm_compute.
Qed.

(* ===================================================================== *)
(** * The declared default value *)
(* ===================================================================== *)



(* ===================================================================== *)
(** * The scenarios of the test suite, and the limits of the claims *)
(* ===================================================================== *)

Lemma blank_spaces : blank "   ".
Proof. unfold blank. simpl. by repeat constructor. Qed.

Lemma john_matches :
  matches_query mockColumns "John" (record 1 "John Doe" "john@example.com").
Proof.
  exists (column "name" "Name"). split; [by left|].
  split; [by vm_compute|]. split; [by vm_compute|].
  by exists EmptyString, " doe".
Qed.

Lemma mock_fields_pass :
  Forall (field_passes (formState filled)) mockFormFields.
Proof.
  constructor; [by exists VNull|]. constructor; [by exists VNull|].
  constructor.
Qed.

Lemma name_field_errs :
  field_errs (formState initialHooks)
    (required_field "name" (Some "Name") None) (VStr "Name is required").
Proof. by split. Qed.

(** 'handles search functionality': the query "John" leaves the first
    record, and the count reads 1. *)
Example search_john :
  filteredData mockData "John" mockColumns
  = [record 1 "John Doe" "john@example.com"]
  /\ length (filteredData mockData "John" mockColumns) = 1%nat.
Proof. by vm_compute. Qed.

(** A record with no name is still found by its email. *)
Example search_null_column :
  filteredData [ {[ "name" := VNull; "email" := VStr "ann@example.com" ]} ]
    "ANN" mockColumns
  = [ {[ "name" := VNull; "email" := VStr "ann@example.com" ]} ].
Proof. by vm_compute. Qed.

(** 'handles form submission' *)
Example submit_filled :
  handleAdd defaultProps filled filled
  = (Ret tt, initialHooks, [CallOnAdd (formState filled)]).
Proof. by vm_compute. Qed.

(** 'handles delete action', with the confirmation accepted. *)
Example delete_first_row :
  handleDelete defaultProps accepting (VNum 1) initialHooks
  = (Ret tt, initialHooks,
     [CallConfirm delete_question; CallOnDelete (VNum 1)]).
Proof. by vm_compute. Qed.

(** A validation function that throws is outside the failure boundary:
    what it throws leaves [handleAdd], and the error state is not set. *)
Example validation_throw_propagates :
  handleAdd (props_with [throwing_field "age" "Age"] jest_fn)
    filled filled
  = (Throw (VStr "TypeError"), filled,
     [CallValidation "age" VUndefined]).
Proof. by vm_compute. Qed.

(** [validateForm] takes a result of [validateField] for an error when it
    is truthy: a validation function that returns the empty string does
    not stop the submission. *)
Example empty_message_is_no_error :
  handleAdd
    (props_with [rejecting_field "nick" "Nick" EmptyString false] jest_fn)
    initialHooks initialHooks
  = (Ret tt, initialHooks,
     [CallValidation "nick" VUndefined; CallOnAdd ∅]).
Proof. by vm_compute. Qed.

(** Against C1 as stated: no record has a value for the column
    "constructor", the only one declared, and the query "native" keeps
    every record, on the text of the function that every object
    inherits under that name. *)
Lemma filteredData_inherited_column :
  Forall (fun item : obj => item !! "constructor" = None) mockData
  /\ filteredData mockData "native" [column "constructor" "Constructor"]
     = mockData.
Proof. split; [by repeat constructor | by vm_compute]. Qed.


(** Against C2 as stated: every field passes and [onAdd] is called once,
    but it throws, and the pending values are still there afterwards. *)
Lemma handleAdd_keeps_values_when_onAdd_throws :
  Forall (field_passes (formState filled)) (formFields failingProps)
  /\ calls_onAdd (trace (handleAdd failingProps filled filled))
     = [formState filled]
  /\ formState (next (handleAdd failingProps filled filled))
     = formState filled
  /\ formState (next (handleAdd failingProps filled filled)) <> ∅.
Proof.
  split; [apply mock_fields_pass|].
  split; [by vm_compute|]. split; [by vm_compute|].
  vm_compute. discriminate.
Qed.

(** Against C3 as stated, twice.  With two fields under one key, both
    err, the first with the message "A is required", and the error state
    holds the message of the second only.  With a field that errs and
    another whose validation function throws, the throw leaves
    [handleAdd] before [setFormErrors] is reached, and the error state
    holds no message at all. *)
Lemma handleAdd_message_not_recorded :
  (In (required_field "a" (Some "A") None) twin_fields
   /\ field_errs (formState initialHooks)
        (required_field "a" (Some "A") None) (VStr "A is required")
   /\ formErrors (next (handleAdd (props_with twin_fields jest_fn)
                          initialHooks initialHooks))
      = {[ "a" := VStr "B is required" ]}
   /\ forall k,
        formErrors (next (handleAdd (props_with twin_fields jest_fn)
                            initialHooks initialHooks)) !! k
        <> Some (VStr "A is required"))
  /\ (field_errs (formState initialHooks)
        (required_field "name" (Some "Name") None)
        (VStr "Name is required")
      /\ handleAdd
           (props_with [required_field "name" (Some "Name") None;
                        throwing_field "age" "Age"] jest_fn)
           initialHooks initialHooks
         = (Throw (VStr "TypeError"), initialHooks,
            [CallValidation "age" VUndefined])
      /\ formErrors
           (next (handleAdd
                    (props_with [required_field "name" (Some "Name") None;
                                 throwing_field "age" "Age"] jest_fn)
                    initialHooks initialHooks))
         = ∅).
Proof.
  split.
  - split; [by left|]. split; [by split|].
    assert (formErrors (next (handleAdd (props_with twin_fields jest_fn)
                                initialHooks initialHooks))
            = {[ "a" := VStr "B is required" ]}) as -> by by vm_compute.
    split; [done|]. intros k.
    destruct (decide (k = "a")) as [-> | Hk].
    + rewrite lookup_singleton_eq. discriminate.
    + by rewrite lookup_singleton_ne.
  - split; [apply name_field_errs|]. split; by vm_compute.
Qed.

(** Against C9 as stated: the two declarations as the claim writes them
    have no label, and the messages name "undefined". *)
Lemma unlabelled_fields_messages :
  formErrors (next (handleAdd (props_with unlabelled_fields jest_fn)
                      initialHooks initialHooks))
  = {[ "name" := VStr "undefined is required";
       "email" := VStr "undefined is required" ]}
  /\ formErrors (next (handleAdd (props_with unlabelled_fields jest_fn)
                         initialHooks initialHooks))
     <> {[ "name" := VStr "Name is required";
           "email" := VStr "Email is required" ]}.
Proof.
  split; [by vm_compute|]. vm_compute. discriminate.
Qed.

(* ===================================================================== *)
(** * The theorems at the fixtures *)
(* ===================================================================== *)

Lemma filteredData_spec_witness :
  filteredData mockData "   " mockColumns = mockData
  /\ In (record 1 "John Doe" "john@example.com")
       (filteredData mockData "John" mockColumns).
Proof.
  assert (safe_data mockData = true) as Hsafe by by vm_compute.
  split.
  - apply (filteredData_spec mockData mockColumns "   " Hsafe), blank_spaces.
  - apply (filteredData_spec mockData mockColumns "John" Hsafe).
    split; [by left | right; apply john_matches].
Defined.

Lemma handleAdd_valid_witness :
  completion (handleAdd defaultProps filled filled) = Ret tt
  /\ formErrors (next (handleAdd defaultProps filled filled)) = ∅.
Proof.
  destruct (handleAdd_valid defaultProps filled filled mock_fields_pass)
    as (Hc & He & _).
  by split.
Defined.

Lemma handleAdd_invalid_witness :
  calls_onAdd (trace (handleAdd defaultProps initialHooks initialHooks)) = [].
Proof.
  apply (handleAdd_invalid defaultProps initialHooks initialHooks).
  exists (required_field "name" (Some "Name") None), (VStr "Name is required").
  split; [by left | apply name_field_errs].
Defined.

Lemma handleDelete_spec_witness :
  calls_onDelete
    (trace (handleDelete defaultProps declining (VNum 1) initialHooks)) = []
  /\ calls_onDelete
       (trace (handleDelete defaultProps accepting (VNum 1) initialHooks))
     = [VNum 1].
Proof.
  assert (In (DeleteButton (VNum 1))
            (rowActions defaultProps
               (record 1 "John Doe" "john@example.com"))) as Hbutton
    by (right; by left).
  split.
  - by apply (handleDelete_spec defaultProps declining _ _ initialHooks
                Hbutton).
  - apply (handleDelete_spec defaultProps accepting _ _ initialHooks
             Hbutton). by right.
Defined.

Lemma callback_errors_caught_witness :
  handleEdit failingProps (record 1 "John Doe" "john@example.com")
    filled
  = (Ret tt, filled,
     [CallOnEdit (record 1 "John Doe" "john@example.com");
      ConsoleError "Error editing item:" (VStr "save failed")])
  /\ completion (handleAdd failingProps filled filled) = Ret tt.
Proof.
  destruct (callback_errors_caught failingProps accepting filled filled
              (VStr "save failed")) as (Hadd & Hedit & _).
  split.
  - by apply Hedit with (f := fun _ => Throw (VStr "save failed")).
  - apply Hadd with (f := fun _ => Throw (VStr "save failed"));
      [done | done | by vm_compute].
Defined.

Lemma filteredData_idempotent_witness :
  filteredData mockData "   " mockColumns = mockData.
Proof.
  apply (filteredData_idempotent mockData mockColumns "   "), blank_spaces.
Defined.

Lemma styles_spec_witness :
  exists resolved : obj,
    styles red_container !! "container" = Some resolved
    /\ resolved !! "backgroundColor" = Some (VStr "red")
    /\ resolved !! "padding" = Some (VStr "20px").
Proof.
  destruct (styles_spec red_container "container") as [_ H].
  destruct (H (default ∅ (defaultStyles !! "container")))
    as (resolved & Hres & _ & Hprops); [by vm_compute|].
  exists resolved. split; [done|].
  split; rewrite Hprops; by vm_compute.
Defined.

Lemma two_required_fields_blank_witness :
  formErrors (next (handleAdd defaultProps initialHooks initialHooks))
  = {[ "name" := VStr "Name is required";
       "email" := VStr "Email is required" ]}
  /\ calls_onAdd (trace (handleAdd defaultProps initialHooks initialHooks))
     = [].
Proof.
  destruct (two_required_fields_blank defaultProps initialHooks initialHooks
              (required_field "name" (Some "Name") None)
              (required_field "email" (Some "Email") (Some TEmail)))
    as (Herrors & Hcalls & _);
    try reflexivity; try (by left).
  by split.
Defined.


(* ===================================================================== *)
(** * More on the search filter *)
(* ===================================================================== *)

Section query_order.
Implicit Types s t q text : string.

Lemma append_assoc s t q : (s +:+ t) +:+ q = s +:+ (t +:+ q).
Proof.
  induction s as [|c s IH]; [done|].
  by rewrite !append_cons, IH.
Qed.

Lemma isWhiteSpace_lowerChar (c : ascii) :
  isWhiteSpace (lowerChar c) = isWhiteSpace c.
Proof. by destruct c as [[] [] [] [] [] [] [] []]. Qed.

Lemma blank_toLowerCase s : blank (toLowerCase s) <-> blank s.
Proof.
  induction s as [|c s IH]; [done|].
  cbn [toLowerCase]. by rewrite !blank_cons, isWhiteSpace_lowerChar, IH.
Qed.

(** A piece of a piece is a piece. *)
Lemma includes_trans s t q :
  includes s t = true -> includes t q = true -> includes s q = true.
Proof.
  rewrite !includes_spec.
  intros (pre & post & ->) (pre' & post' & ->).
  exists (pre +:+ pre'), (post' +:+ post). by rewrite !append_assoc.
Qed.

Lemma columnMatches_narrow q q' (item : obj) (col : Column) :
  lowered_contains q' q ->
  columnMatches q' item col = true -> columnMatches q item col = true.
Proof.
  intros Hq. apply includes_lowered in Hq. unfold columnMatches.
  destruct (is_nullish (js_read item (col_key col))); [done|].
  intros H. by apply (includes_trans _ (toLowerCase q')).
Qed.

Lemma keeps_narrow (columns : list Column) q q' (item : obj) :
  lowered_contains q' q -> ~ blank q' ->
  keeps columns q' item = true -> keeps columns q item = true.
Proof.
  intros Hq Hb. unfold keeps. rewrite !orb_true_iff, not_truthy_trim.
  intros [H | H]; [done|]. right.
  apply existsb_exists in H as (col & Hin & H).
  apply existsb_exists. exists col. split; [done|].
  by apply (columnMatches_narrow q q').
Qed.

Lemma keeps_same (columns : list Column) q q' (item : obj) :
  toLowerCase q = toLowerCase q' ->
  keeps columns q item = keeps columns q' item.
Proof.
  intros H. unfold keeps. f_equal.
  - apply eq_true_iff_eq. rewrite !not_truthy_trim.
    by rewrite <- (blank_toLowerCase q), H, blank_toLowerCase.
  - induction columns as [|col cols IH]; [done|]. simpl.
    f_equal; [|done]. unfold columnMatches. by rewrite H.
Qed.
End query_order.

Section list_filter_order.
Context {A : Type} (f g : A -> bool).

Lemma filter_sublist_mono (l : list A) :
  (forall x, f x = true -> g x = true) ->
  sublist (List.filter f l) (List.filter g l).
Proof.
  intros Hfg. induction l as [|x l IH]; simpl; [constructor|].
  destruct (f x) eqn:Hf.
  - rewrite (Hfg x Hf). by constructor.
  - destruct (g x); [by constructor | done].
Qed.
End list_filter_order.

(** X1.  A longer query narrows the view: when the query [q'] is not blank
    and lower-cased [q] is a piece of lower-cased [q'], the view for [q']
    is a sublist of the view for [q]. *)
Theorem filteredData_narrows (data : list obj) (columns : list Column)
    (q q' : string) :
  lowered_contains q' q -> ~ blank q' ->
  sublist (filteredData data q' columns) (filteredData data q columns).
Proof.
  intros Hq Hb. rewrite !filteredData_filter.
  apply filter_sublist_mono. intros item. by apply keeps_narrow.
Qed.

(** X2.  The view does not depend on the case of the letters of the
    query. *)
Theorem filteredData_query_case (data : list obj) (columns : list Column)
    (q q' : string) :
  toLowerCase q = toLowerCase q' ->
  filteredData data q columns = filteredData data q' columns.
Proof.
  intros Hq. rewrite !filteredData_filter.
  apply List.filter_ext. intros item. by apply keeps_same.
Qed.

(** X3.  Each record is judged on its own: the view of two collections
    put end to end is the two views put end to end, and the view has at
    most as many records as the collection. *)
Theorem filteredData_app (data1 data2 : list obj) (columns : list Column)
    (q : string) :
  filteredData (data1 ++ data2) q columns
  = filteredData data1 q columns ++ filteredData data2 q columns
  /\ (length (filteredData data1 q columns) <= length data1)%nat.
Proof.
  rewrite !filteredData_filter. split.
  - apply List.filter_app.
  - apply List.filter_length_le.
Qed.

(** X4.  Declaring more columns can only add records to the view, and
    with no column declared a query that is not blank finds nothing. *)
Theorem filteredData_columns (data : list obj) (columns more : list Column)
    (q : string) :
  sublist (filteredData data q columns)
    (filteredData data q (columns ++ more))
  /\ (~ blank q -> filteredData data q [] = []).
Proof.
  split.
  - rewrite !filteredData_filter. apply filter_sublist_mono.
    intros item. unfold keeps. rewrite existsb_app, !orb_true_iff. tauto.
  - intros Hq. rewrite filteredData_not_blank by done. simpl.
    induction data as [|item data IH]; [done | exact IH].
Qed.

(* ===================================================================== *)
(** * More on the style resolver *)
(* ===================================================================== *)

Lemma spread_empty (dflt : obj) : spread dflt ∅ = dflt.
Proof. unfold spread. apply (left_id_L ∅ (∪)). Qed.

Lemma spread_twice (dflt override : obj) :
  spread dflt (spread dflt override) = spread dflt override.
Proof.
  unfold spread. rewrite <- (assoc_L (∪)). f_equal. apply (idemp_L (∪)).
Qed.

(** X5.  Without overrides the resolved styles are the defaults, and
    resolving is idempotent: the resolved styles, given back as overrides,
    resolve to themselves. *)
Theorem styles_default_idempotent (customStyles : gmap string obj) :
  styles ∅ = defaultStyles
  /\ styles (styles customStyles) = styles customStyles.
Proof.
  split; apply map_eq; intros region; rewrite !styles_lookup.
  - destruct (defaultStyles !! region) as [dflt|]; [|done]. simpl.
    unfold override_of. rewrite lookup_empty. simpl.
    by rewrite spread_empty.
  - destruct (defaultStyles !! region) as [dflt|] eqn:Hd; [|done]. simpl.
    unfold override_of at 1. rewrite styles_lookup, Hd. simpl.
    by rewrite spread_twice.
Qed.

(* ===================================================================== *)
(** * More on the validation of one field *)
(* ===================================================================== *)

Lemma required_check_fails_iff (field : FormField) (v : value) :
  required_check_fails field v = true
  <-> required field = true
      /\ (truthy v = false \/ blank (ToString v)).
Proof.
  unfold required_check_fails.
  rewrite andb_true_iff, orb_true_iff, negb_true_iff, String.eqb_eq,
    trim_empty.
  tauto.
Qed.

(** X6.  The required check fails exactly on a required field whose
    pending value is falsy or has a blank text, which takes in [0],
    [false] and [null].  [validateField] never returns [true]: when the
    validation function returns [true] the result is [null], and when it
    throws, the throw is the completion.  A field that is neither required
    nor validated has no error on any value. *)
Theorem validateField_cases (field : FormField) (v : value) (h : Hooks) :
  (required_check_fails field v = true
   <-> required field = true /\ (truthy v = false \/ blank (ToString v)))
  /\ completion (validateField field v h) <> Ret (VBool true)
  /\ (required field = false -> validation field = None ->
      validateField field v h = (Ret VNull, h, []))
  /\ (forall validate,
        validation field = Some validate ->
        required_check_fails field v = false ->
        match validate v with
        | Ret r =>
            validateField field v h
            = (Ret (if strict_eq r (VBool true) then VNull else r), h,
               [CallValidation (key field) v])
        | Throw e =>
            validateField field v h
            = (Throw e, h, [CallValidation (key field) v])
        end).
Proof.
  split; [apply required_check_fails_iff|].
  split; [|split].
  - unfold validateField.
    destruct (required_check_fails field v); [done|].
    destruct (validation field) as [validate|]; [|done].
    run_M. destruct (validate v) as [r|e]; [|done].
    unfold strict_eq. case_bool_decide as Hr; simpl; [done|].
    intros [= ->]. done.
  - intros Hreq Hval. unfold validateField, required_check_fails.
    by rewrite Hreq, Hval.
  - intros validate Hval Hreq. unfold validateField.
    rewrite Hreq, Hval. run_M.
    destruct (validate v) as [r|e]; [|done].
    by destruct (strict_eq r (VBool true)).
Qed.

(* ===================================================================== *)
(** * Typing into a field *)
(* ===================================================================== *)

Lemma after_handleFieldChange (h : Hooks) (k : string) (v : value) :
  after (fun h' => handleFieldChange h' k v) h
  = {| formState := <[k := v]> (formState h);
       search := search h;
       formErrors :=
         if truthy (js_get (formErrors h) k)
         then <[k := VNull]> (formErrors h)
         else formErrors h;
       editingItem := editingItem h |}.
Proof. unfold after. by rewrite handleFieldChange_run. Qed.

Lemma js_get_insert (o : obj) (k : string) (v : value) :
  js_get (<[k := v]> o) k = v.
Proof. unfold js_get. by rewrite lookup_insert_eq. Qed.

Lemma js_get_insert_ne (o : obj) (k k' : string) (v : value) :
  k <> k' -> js_get (<[k := v]> o) k' = js_get o k'.
Proof. intros H. unfold js_get. by rewrite lookup_insert_ne. Qed.

(** X7.  After the text is typed into a field, the control of the field
    shows that text and no error, and calls nothing outside; the control
    of a field with another key is as it was.  An error that was shown is
    overwritten with [null], its key stays in the error state. *)
Theorem typing_updates_one_field (v : ViewProps) (h : Hooks)
    (field : FormField) (text : string) :
  let h1 := after (fun h' => handleFieldChange h' (key field) (VStr text)) h in
  fv_value (renderField v h1 field) = VStr text
  /\ fv_error (renderField v h1 field) = None
  /\ (forall other : FormField,
        key other <> key field ->
        renderField v h1 other = renderField v h other)
  /\ (fv_error (renderField v h field) <> None ->
      formErrors h1 !! key field = Some VNull)
  /\ handleFieldChange h (key field) (VStr text) h = (Ret tt, h1, []).
Proof.
  intros h1. subst h1. rewrite after_handleFieldChange.
  split; [|split; [|split; [|split]]].
  - unfold renderField, inputValue, js_or. simpl. rewrite js_get_insert.
    simpl. by destruct (String.eqb text EmptyString) eqn:E;
      [apply String.eqb_eq in E as ->|].
  - unfold renderField. simpl.
    destruct (truthy (js_get (formErrors h) (key field))) eqn:E.
    + by rewrite js_get_insert.
    + by rewrite E.
  - intros other Hk. unfold renderField, inputValue. simpl.
    rewrite js_get_insert_ne by done.
    destruct (truthy (js_get (formErrors h) (key field)));
      [by rewrite js_get_insert_ne | done].
  - unfold renderField. simpl.
    destruct (truthy (js_get (formErrors h) (key field))); [|done].
    intros _. apply lookup_insert_eq.
  - by rewrite handleFieldChange_run.
Qed.

(* ===================================================================== *)
(** * More on the handlers *)
(* ===================================================================== *)

Lemma edit_button_rendered (p : Props) (item it : obj) :
  In (EditButton it) (rowActions p item)
  <-> is_Some (onEdit p) /\ it = item.
Proof.
  unfold rowActions. rewrite !in_app_iff.
  destruct (onEdit p), (onDelete p), (renderActions p); simpl;
    split; intros H;
    repeat match goal with
      | H : _ \/ _ |- _ => destruct H
      | H : _ /\ _ |- _ => destruct H
      | H : is_Some None |- _ => by destruct H
      | H : False |- _ => destruct H
      | H : _ = _ |- _ => first [discriminate H | injection H as <-]
      end;
    try done; try (split; [by eexists | done]); subst; tauto.
Qed.

(** X8.  The edit button of a row carries the whole record.  A click on
    it calls [onEdit] once, on that record, asks the user nothing, calls
    neither [onAdd] nor [onDelete], completes normally and leaves the
    hooks as they are. *)
Theorem handleEdit_spec (p : Props) (w : Window) (item it : obj)
    (h0 : Hooks) :
  In (EditButton it) (rowActions p item) ->
  it = item
  /\ calls_onEdit (trace (click p w (EditButton it) h0)) = [item]
  /\ calls_onAdd (trace (click p w (EditButton it) h0)) = []
  /\ calls_onDelete (trace (click p w (EditButton it) h0)) = []
  /\ (forall q, ~ In (CallConfirm q) (trace (click p w (EditButton it) h0)))
  /\ completion (click p w (EditButton it) h0) = Ret tt
  /\ next (click p w (EditButton it) h0) = h0.
Proof.
  intros Hbutton. apply edit_button_rendered in Hbutton as [[f Hf] ->].
  split; [done|]. cbn [click]. rewrite handleEdit_run, Hf.
  destruct (f item) as [[]|e]; simpl;
    (split; [done|]); (split; [done|]); (split; [done|]);
    (split; [|done]).
  - intros q [H | []]. discriminate.
  - intros q [H | [H | []]]; discriminate.
Qed.

(** X9.  What the handlers leave alone.  Editing and deleting queue no
    state update.  Submitting and typing into a field change neither the
    search text nor [editingItem].  Typing into the search box sets the
    search text and changes nothing else, and calls nothing. *)
Theorem handlers_frame (p : Props) (w : Window) (h h0 : Hooks) :
  (forall item, next (handleEdit p item h0) = h0)
  /\ (forall id, next (handleDelete p w id h0) = h0)
  /\ search (next (handleAdd p h h0)) = search h0
  /\ editingItem (next (handleAdd p h h0)) = editingItem h0
  /\ (forall k v,
        search (next (handleFieldChange h k v h0)) = search h0
        /\ editingItem (next (handleFieldChange h k v h0))
           = editingItem h0)
  /\ (forall text,
        handleSearchChange text h0
        = (Ret tt,
           {| formState := formState h0; search := text;
              formErrors := formErrors h0;
              editingItem := editingItem h0 |}, [])).
Proof.
  split; [|split; [|split; [|split; [|split]]]].
  - intros item. rewrite handleEdit_run.
    destruct (onEdit p) as [f|]; [|done]. by destruct (f item).
  - intros id. rewrite handleDelete_run.
    destruct (confirmDelete p), (confirm w delete_question),
      (onDelete p) as [f|]; simpl; try done; by destruct (f id).
  - rewrite handleAdd_run, validateFields_triple.
    destruct (completion _) as [[errors [|]]|e]; simpl; try done.
    destruct (onAdd p) as [f|]; [|done]. by destruct (f (formState h)).
  - rewrite handleAdd_run, validateFields_triple.
    destruct (completion _) as [[errors [|]]|e]; simpl; try done.
    destruct (onAdd p) as [f|]; [|done]. by destruct (f (formState h)).
  - intros k v. by rewrite handleFieldChange_run.
  - done.
Qed.

Section validation_order.
Variable fs : obj.

Lemma calls_validation_app (t t' : list effect) :
  calls_validation (t ++ t') = calls_validation t ++ calls_validation t'.
Proof. apply omap_app. Qed.

Lemma validateField_calls (field : FormField) (v : value) (h : Hooks) :
  calls_validation (trace (validateField field v h)) = []
  \/ calls_validation (trace (validateField field v h)) = [(key field, v)].
Proof.
  unfold validateField.
  destruct (required_check_fails field v); [by left|].
  destruct (validation field) as [validate|]; [|by left].
  right. run_M. destruct (validate v) as [r|e]; [|done].
  by destruct (negb (strict_eq r (VBool true))).
Qed.

Lemma validateFields_calls (fields : list FormField) :
  forall acc h,
    sublist (calls_validation (trace (validateFields fields fs acc h)))
      (pending fs fields).
Proof.
  induction fields as [|field rest IH]; intros acc h; [constructor|].
  rewrite validateFields_cons. unfold pending. rewrite fmap_cons.
  fold (pending fs rest).
  destruct (validateField_calls field (js_get fs (key field)) initialHooks)
    as [Hc | Hc].
  - destruct (field_result fs field) as [r|e].
    + specialize (IH (note_error field r acc) h).
      destruct (validateFields rest fs _ h) as [[r' h'] t'].
      unfold trace in *. simpl in *. rewrite calls_validation_app, Hc.
      by constructor.
    + unfold trace in *. simpl in *. rewrite Hc. apply sublist_nil_l.
  - destruct (field_result fs field) as [r|e].
    + specialize (IH (note_error field r acc) h).
      destruct (validateFields rest fs _ h) as [[r' h'] t'].
      unfold trace in *. simpl in *. rewrite calls_validation_app, Hc.
      by constructor.
    + unfold trace in *. simpl in *. rewrite Hc.
      constructor. apply sublist_nil_l.
Qed.

Lemma validateFields_throw_inv (fields : list FormField) :
  forall acc h e,
    completion (validateFields fields fs acc h) = Throw e ->
    exists field, In field fields /\ field_result fs field = Throw e.
Proof.
  induction fields as [|field rest IH]; intros acc h e; [done|].
  rewrite validateFields_cons.
  destruct (field_result fs field) as [r|e'] eqn:Hf.
  - intros H. destruct (IH (note_error field r acc) h e)
      as (f & Hin & Hthrow).
    { by destruct (validateFields rest fs _ h) as [[r' h'] t']. }
    exists f. split; [by right | done].
  - intros [= ->]. exists field. split; [by left | done].
Qed.

Lemma validateFields_throws (fields : list FormField) :
  forall acc h field e,
    In field fields -> field_result fs field = Throw e ->
    exists e', completion (validateFields fields fs acc h) = Throw e'.
Proof.
  induction fields as [|f rest IH]; intros acc h field e Hin Hthrow;
    [done|].
  rewrite validateFields_cons.
  destruct (field_result fs f) as [r|e'] eqn:Hf; [|by exists e'].
  destruct Hin as [-> | Hin]; [congruence|].
  destruct (IH (note_error f r acc) h field e Hin Hthrow) as [e'' He''].
  exists e''. by destruct (validateFields rest fs _ h) as [[r' h'] t'].
Qed.
End validation_order.

(** X10.  During a submit attempt the validation functions are called in
    the order of the declarations, each at most once, and each on the
    pending value of its own field. *)
Theorem validation_calls_in_order (p : Props) (h h0 : Hooks) :
  sublist (calls_validation (trace (handleAdd p h h0)))
    (pending (formState h) (formFields p)).
Proof.
  rewrite handleAdd_run, validateFields_triple.
  pose proof (validateFields_calls (formState h) (formFields p)
                (∅, true) h0) as Hsub.
  destruct (completion _) as [[errors [|]]|e]; simpl; try done.
  destruct (onAdd p) as [f|]; [|done].
  destruct (f (formState h)); simpl; rewrite calls_validation_app;
    simpl; by rewrite app_nil_r.
Qed.

(** X11.  A submit attempt completes with a throw exactly when some
    validation function throws.  What leaves [handleAdd] is then what a
    validation function threw; nothing is queued, [onAdd] is not called
    and nothing is logged. *)
Theorem handleAdd_throw (p : Props) (h h0 : Hooks) :
  ((exists e, completion (handleAdd p h h0) = Throw e)
   <-> exists field e,
         In field (formFields p)
         /\ field_result (formState h) field = Throw e)
  /\ (forall e,
        completion (handleAdd p h h0) = Throw e ->
        (exists field,
            In field (formFields p)
            /\ field_result (formState h) field = Throw e)
        /\ next (handleAdd p h h0) = h0
        /\ calls_onAdd (trace (handleAdd p h h0)) = []
        /\ logged (trace (handleAdd p h h0)) = []).
Proof.
  assert (forall e,
            completion (handleAdd p h h0) = Throw e ->
            completion (validateFields (formFields p) (formState h)
                          (∅, true) h0) = Throw e
            /\ next (handleAdd p h h0) = h0
            /\ calls_onAdd (trace (handleAdd p h h0)) = []
            /\ logged (trace (handleAdd p h h0)) = []) as Hinv.
  { intros e. rewrite handleAdd_run, validateFields_triple.
    pose proof (validateFields_only_validation (formState h)
                  (formFields p) (∅, true) h0) as Ht.
    apply only_validation_silent in Ht as (Hadd & _ & _ & Hlog).
    destruct (completion (validateFields (formFields p) (formState h)
                            (∅, true) h0)) as [[errors [|]]|e'].
    - destruct (onAdd p) as [f|]; [|by cbn].
      by destruct (f (formState h)); cbn.
    - by cbn.
    - intros H. unfold completion in H. simpl in H. injection H as ->.
      split; [done|]. split; [done|]. split; [exact Hadd | exact Hlog]. }
  split; [split|].
  - intros [e He]. apply Hinv in He as [He _].
    apply validateFields_throw_inv in He as (field & Hin & Hthrow).
    by exists field, e.
  - intros (field & e & Hin & Hthrow).
    destruct (validateFields_throws (formState h) (formFields p)
                (∅, true) h0 field e Hin Hthrow) as [e' He'].
    exists e'. rewrite handleAdd_run, validateFields_triple. by rewrite He'.
  - intros e He. destruct (Hinv e He) as (Hv & Hn & Ha & Hl).
    split; [|done]. by apply validateFields_throw_inv in Hv.
Qed.

(* ===================================================================== *)
(** * Sequences of events *)
(* ===================================================================== *)

Lemma handleAdd_pass_run (p : Props) (h h0 : Hooks) :
  Forall (field_passes (formState h)) (formFields p) ->
  handleAdd p h h0
  = let t := trace (validateFields (formFields p) (formState h)
                      (∅, true) h0) in
    match onAdd p with
    | Some f =>
        match f (formState h) with
        | Ret _ => (Ret tt, after_reset h0, t ++ [CallOnAdd (formState h)])
        | Throw e =>
            (Ret tt, with_errors h0 ∅,
             t ++ [CallOnAdd (formState h);
                   ConsoleError "Error adding item:" e])
        end
    | None => (Ret tt, after_reset h0, t)
    end.
Proof.
  intros Hpass. rewrite handleAdd_run, validateFields_triple.
  by rewrite (validateFields_pass _ _ Hpass).
Qed.

Lemma handleAdd_no_call (p : Props) (h h0 : Hooks) (field : FormField)
    (msg : value) :
  In field (formFields p) -> field_errs (formState h) field msg ->
  calls_onAdd (trace (handleAdd p h h0)) = []
  /\ formState (next (handleAdd p h h0)) = formState h0.
Proof.
  intros Hin Herr. rewrite handleAdd_run, validateFields_triple.
  pose proof (validateFields_only_validation (formState h) (formFields p)
                (∅, true) h0) as Ht.
  apply only_validation_silent in Ht as (Hadd & _).
  destruct (completion (validateFields (formFields p) (formState h)
                          (∅, true) h0)) as [[errors ok]|e] eqn:Hc.
  - assert (ok = false) as -> by eauto using validateFields_invalid.
    by split.
  - by split.
Qed.

Lemma required_message_truthy (s : string) :
  truthy (VStr (s +:+ " is required")) = true.
Proof. by destruct s. Qed.

(** In the reset form a key that no object inherits reads as
    [undefined]. *)
Lemma required_field_errs_on_empty (field : FormField) :
  required field = true ->
  inherited (key field) = None ->
  field_errs ∅ field (VStr (label_text field +:+ " is required")).
Proof.
  intros Hr _. split; [|apply required_message_truthy].
  apply field_result_required; [done|]. left.
  unfold js_get. by rewrite lookup_empty.
Qed.

(** X12.  What is typed is what is submitted.  After a value is typed
    into the field [k], a submit attempt on which every field passes calls
    [onAdd] once, on the earlier pending values with [k] set to that
    value; and of two values typed into one field the later stays. *)
Theorem typing_then_submit (p : Props) (h : Hooks) (k : string)
    (v v' : value) (f : obj -> outcome unit) :
  onAdd p = Some f ->
  Forall (field_passes (<[k := v]> (formState h))) (formFields p) ->
  calls_onAdd
    (trace (handleAdd p
              (after (fun h' => handleFieldChange h' k v) h)
              (after (fun h' => handleFieldChange h' k v) h)))
  = [<[k := v]> (formState h)]
  /\ formState
       (after (fun h' => handleFieldChange h' k v')
          (after (fun h' => handleFieldChange h' k v) h))
     = <[k := v']> (formState h).
Proof.
  intros Hf Hpass. rewrite !after_handleFieldChange. split.
  - rewrite handleAdd_pass_run by done. cbn [onAdd formState].
    rewrite Hf.
    match goal with
    | |- context [trace (validateFields ?fl ?fs ?acc ?h1)] =>
        pose proof (validateFields_only_validation fs fl acc h1) as Ht
    end.
    apply only_validation_silent in Ht as (Hadd & _).
    cbn [formState] in Hadd.
    destruct (f (<[k := v]> (formState h))); cbn [trace snd];
      by rewrite calls_onAdd_app, Hadd.
  - cbn [formState]. apply insert_insert_eq.
Qed.

(** X13.  A form with a required field, under a key that is not the name
    of an inherited property, cannot be submitted twice in a row.  After a
    submit attempt that passed and whose [onAdd] returned, the pending
    values are gone, and a second attempt calls nothing and leaves them
    empty. *)
Theorem submit_twice (p : Props) (h : Hooks) (f : obj -> outcome unit)
    (field : FormField) :
  onAdd p = Some f -> f (formState h) = Ret tt ->
  Forall (field_passes (formState h)) (formFields p) ->
  In field (formFields p) -> required field = true ->
  inherited (key field) = None ->
  after (handleAdd p) h = after_reset h
  /\ calls_onAdd
       (trace (handleAdd p (after (handleAdd p) h) (after (handleAdd p) h)))
     = []
  /\ formState (after (handleAdd p) (after (handleAdd p) h)) = ∅.
Proof.
  intros Hf Hret Hpass Hin Hreq Hown.
  assert (after (handleAdd p) h = after_reset h) as Hafter.
  { unfold after. rewrite handleAdd_pass_run by done.
    by rewrite Hf, Hret. }
  split; [done|]. rewrite !Hafter. unfold after.
  destruct (handleAdd_no_call p (after_reset h) (after_reset h) field
              (VStr (label_text field +:+ " is required")) Hin)
    as [Hcalls Hstate].
  { by apply required_field_errs_on_empty. }
  by split.
Qed.

(* ===================================================================== *)
(** * From the result of a validation to the error state *)
(* ===================================================================== *)




(* ===================================================================== *)
(** * The table and the controls *)
(* ===================================================================== *)

Lemma rows_of_renderTableArea (p : Props) (v : ViewProps) (h : Hooks) :
  rows_of (renderTableArea p v h)
  = if loading v then [] else renderRow p <$> visible p h.
Proof.
  unfold renderTableArea. destruct (loading v); [done|].
  by destruct (visible p h).
Qed.

Lemma visible_spec (p : Props) (h : Hooks) (item : obj) :
  In item (visible p h)
  <-> In item (data p)
      /\ (blank (search h) \/ matches_query (columns p) (search h) item).
Proof.
  unfold visible. rewrite filteredData_filter, filter_In, keeps_spec. tauto.
Qed.

Lemma row_width_renderRow (p : Props) (item : obj) :
  row_width (renderRow p item) = length (renderHead p)
  /\ length (cells (renderRow p item)) = length (columns p).
Proof.
  unfold row_width, renderRow, renderHead. simpl.
  rewrite length_app, !length_fmap. by destruct (has_actions p).
Qed.

(** X14.  Unless the data is loading, the rows on the screen are the
    visible records, one row each and in their order, and the total shown
    is their number.  Every row shows a record of the data that the query
    keeps, under the [id] of that record, and has as many cells as the
    head of the table, one per column and one more if the table has
    actions.  While the data is loading there is no row. *)
Theorem rows_are_visible_records (p : Props) (v : ViewProps) (h : Hooks) :
  (loading v = true -> rows_of (renderTableArea p v h) = [])
  /\ (loading v = false ->
      rows_of (renderTableArea p v h) = renderRow p <$> visible p h
      /\ row_key <$> rows_of (renderTableArea p v h)
         = (fun item => js_get item "id") <$> visible p h
      /\ totalLabel p h
         = "Total: "
           +:+ Z_to_string
                 (Z.of_nat (length (rows_of (renderTableArea p v h)))))
  /\ (forall r,
        In r (rows_of (renderTableArea p v h)) ->
        exists item,
          r = renderRow p item
          /\ In item (data p)
          /\ (blank (search h)
              \/ matches_query (columns p) (search h) item)
          /\ row_width r = length (renderHead p)
          /\ length (cells r) = length (columns p)).
Proof.
  rewrite rows_of_renderTableArea. split; [by intros ->|]. split.
  - intros ->. split; [done|]. split.
    + rewrite <- list_fmap_compose. done.
    + unfold totalLabel. by rewrite length_fmap.
  - intros r Hr. destruct (loading v); [done|].
    apply list_elem_of_In, list_elem_of_fmap in Hr as (item & -> & Hitem).
    apply list_elem_of_In, visible_spec in Hitem as [Hdata Hkeep].
    exists item. destruct (row_width_renderRow p item). by repeat split.
Qed.

(** X15.  The message for an empty view is shown exactly when the data is
    not loading and no record is visible.  It reads "No results found"
    whenever the search text is not the empty string, and the caller's
    [emptyMessage] otherwise: over an empty collection, a search text of
    spaces gives "No results found" although it filters nothing. *)
Theorem empty_message (p : Props) (v : ViewProps) (h : Hooks) :
  (forall m,
      renderTableArea p v h = EmptyMessage m
      <-> loading v = false /\ visible p h = []
          /\ m = if String.eqb (search h) EmptyString
                 then emptyMessage v else "No results found")
  /\ (loading v = false -> data p = [] -> search h <> EmptyString ->
      renderTableArea p v h = EmptyMessage "No results found").
Proof.
  assert (forall s : string,
            (if truthy (VStr s) then "No results found" else emptyMessage v)
            = if String.eqb s EmptyString
              then emptyMessage v else "No results found") as Hmsg.
  { intros s. simpl. by destruct (String.eqb s EmptyString). }
  split.
  - intros m. unfold renderTableArea. rewrite Hmsg.
    destruct (loading v); [split; [done | by intros [? _]]|].
    destruct (visible p h) as [|item items]; simpl.
    + split; [by intros [= <-] | by intros (_ & _ & ->)].
    + split; [done | by intros (_ & ? & _)].
  - intros Hl Hd Hs. unfold renderTableArea, visible.
    rewrite Hl, Hd, Hmsg.
    assert (filteredData [] (search h) (columns p) = []) as ->.
    { unfold filteredData. by destruct (negb _). }
    simpl. apply String.eqb_neq in Hs. by rewrite Hs.
Qed.

Lemma custom_nodes_rowActions (p : Props) (item : obj)
    (f : obj -> value) :
  renderActions p = Some f ->
  (c ← rowActions p item;
   match c with CustomActions node => [node] | _ => [] end)
  = [f item].
Proof.
  intros Hf. unfold rowActions. rewrite Hf.
  by destruct (onEdit p), (onDelete p).
Qed.

(** X16.  A supplied [renderActions] is applied once to every visible
    record, in order, whatever other actions the rows have, and to no
    record while the data is loading. *)
Theorem renderActions_once_per_row (p : Props) (v : ViewProps) (h : Hooks)
    (f : obj -> value) :
  renderActions p = Some f ->
  custom_nodes (renderTableArea p v h)
  = if loading v then [] else f <$> visible p h.
Proof.
  intros Hf. unfold custom_nodes. rewrite rows_of_renderTableArea.
  destruct (loading v); [done|].
  induction (visible p h) as [|item items IH]; [done|].
  rewrite !fmap_cons, bind_cons, IH. f_equal.
  unfold renderRow, has_actions. cbn [actions]. rewrite Hf.
  replace (bool_decide (is_Some (Some f))) with true
    by (symmetry; by apply bool_decide_eq_true_2).
  rewrite orb_true_r. cbn [default from_option]. unfold id.
  by rewrite (custom_nodes_rowActions p item f Hf).
Qed.

(** X17.  The [disabled] attribute of every control on the page is the
    [loading] flag: the row buttons never carry the attribute and are on
    the page only when the data is not loading, each on a visible record.
    The search box is always there; the Add button is there only with an
    [onAdd] and at least one field. *)
Theorem widgets_disabled (p : Props) (v : ViewProps) (h : Hooks) :
  Forall (fun w => w.2 = loading v) (widgets p v h)
  /\ In (SearchInput, loading v) (widgets p v h)
  /\ (forall b, In (AddButton, b) (widgets p v h) ->
                is_Some (onAdd p) /\ formFields p <> [])
  /\ (forall c b,
        In (RowControl c, b) (widgets p v h) ->
        loading v = false
        /\ exists item, In item (visible p h) /\ In c (rowActions p item)).
Proof.
  assert (forall c b,
            In (RowControl c, b)
              (r ← rows_of (renderTableArea p v h);
               c ← default [] (actions r);
               [(RowControl c, false)]) ->
            b = false /\ loading v = false
            /\ exists item,
                 In item (visible p h) /\ In c (rowActions p item))
    as Hrows.
  { intros c b Hin. rewrite rows_of_renderTableArea in Hin.
    apply list_elem_of_In, list_elem_of_bind in Hin as (r & Hin & Hr).
    apply list_elem_of_bind in Hin as (c' & Hin & Hc').
    apply list_elem_of_singleton in Hin as [= <- ->].
    destruct (loading v); [by apply elem_of_nil in Hr|].
    apply list_elem_of_fmap in Hr as (item & -> & Hitem).
    split; [done|]. split; [done|]. exists item.
    split; [by apply list_elem_of_In|].
    unfold renderRow in Hc'. cbn [actions] in Hc'.
    destruct (has_actions p); [|by apply elem_of_nil in Hc'].
    by apply list_elem_of_In. }
  unfold widgets. split; [|split; [|split]].
  - repeat apply Forall_app_2.
    + destruct (onRefresh v); by repeat constructor.
    + destruct (0 <? length (formFields p))%nat; [|constructor].
      apply Forall_app_2.
      * apply Forall_fmap, Forall_forall. by intros field _.
      * destruct (onAdd p); by repeat constructor.
    + by repeat constructor.
    + apply Forall_forall. intros [w b] Hin.
      assert (exists c, w = RowControl c) as [c ->].
      { apply list_elem_of_bind in Hin as (r & Hin & _).
        apply list_elem_of_bind in Hin as (c & Hin & _).
        apply list_elem_of_singleton in Hin as [= -> ->]. by exists c. }
      apply list_elem_of_In, Hrows in Hin as (-> & -> & _). done.
  - rewrite !in_app_iff. right. right. left. by left.
  - intros b. rewrite !in_app_iff. intros [H | [H | [H | H]]].
    + destruct (onRefresh v); simpl in H; by intuition.
    + destruct (formFields p) as [|field fields] eqn:Hfields;
        [done|]. split; [|done].
      cbn [length Nat.ltb Nat.leb] in H.
      apply in_app_iff in H as [H | H].
      * apply list_elem_of_In, list_elem_of_fmap in H as (? & [=] & _).
      * destruct (onAdd p); [by eexists | done].
    + simpl in H. by intuition.
    + apply list_elem_of_In in H.
      apply list_elem_of_bind in H as (r & H & _).
      apply list_elem_of_bind in H as (c & H & _).
      by apply list_elem_of_singleton in H.
  - intros c b. rewrite !in_app_iff. intros [H | [H | [H | H]]].
    + destruct (onRefresh v); simpl in H; by intuition.
    + destruct (0 <? length (formFields p))%nat; [|done].
      apply in_app_iff in H as [H | H].
      * apply list_elem_of_In, list_elem_of_fmap in H as (? & [=] & _).
      * destruct (onAdd p); simpl in H; by intuition.
    + simpl in H. by intuition.
    + by apply Hrows in H as (_ & ? & ?).
Qed.

(* ===================================================================== *)
(** * The further theorems at the fixtures *)
(* ===================================================================== *)

Lemma filteredData_narrows_witness :
  sublist (filteredData mockData "John" mockColumns)
    (filteredData mockData "jo" mockColumns).
Proof.
  apply filteredData_narrows.
  - by exists EmptyString, "hn".
  - intros H. apply blank_cons in H as [H _]. discriminate H.
Defined.

Lemma filteredData_query_case_witness :
  filteredData mockData "JOHN" mockColumns
  = filteredData mockData "john" mockColumns.
Proof. by apply filteredData_query_case. Defined.

Lemma filteredData_columns_witness : filteredData mockData "John" [] = [].
Proof.
  apply (filteredData_columns mockData [] [] "John").
  intros H. apply blank_cons in H as [H _]. discriminate H.
Defined.

Lemma validateField_cases_witness :
  validateField (defaulted_field "role" "Role" (VStr "User")) VUndefined
    initialHooks
  = (Ret VNull, initialHooks, []).
Proof.
  by apply (validateField_cases (defaulted_field "role" "Role" (VStr "User"))
              VUndefined initialHooks).
Defined.

Lemma typing_updates_one_field_witness :
  formErrors
    (after (fun h' => handleFieldChange h' "name" (VStr "N")) rejected)
  !! "name" = Some VNull.
Proof.
  apply (typing_updates_one_field testView rejected
           (required_field "name" (Some "Name") None) "N").
  by vm_compute.
Defined.

Lemma handleEdit_spec_witness :
  calls_onEdit
    (trace (click defaultProps accepting
              (EditButton (record 1 "John Doe" "john@example.com"))
              initialHooks))
  = [record 1 "John Doe" "john@example.com"].
Proof.
  apply (handleEdit_spec defaultProps accepting
           (record 1 "John Doe" "john@example.com")). by left.
Defined.

Lemma handleAdd_throw_witness :
  exists e,
    completion (handleAdd (props_with [throwing_field "age" "Age"] jest_fn)
                  initialHooks initialHooks) = Throw e.
Proof.
  apply (handleAdd_throw (props_with [throwing_field "age" "Age"] jest_fn)
           initialHooks initialHooks).
  exists (throwing_field "age" "Age"), (VStr "TypeError").
  split; [by left | done].
Defined.

Lemma typing_then_submit_witness :
  calls_onAdd
    (trace (handleAdd defaultProps
              (after (fun h' => handleFieldChange h' "email"
                                  (VStr "new@example.com")) named)
              (after (fun h' => handleFieldChange h' "email"
                                  (VStr "new@example.com")) named)))
  = [<["email" := VStr "new@example.com"]> (formState named)].
Proof.
  apply (typing_then_submit defaultProps named "email"
           (VStr "new@example.com") VNull (fun _ => Ret tt)); [done|].
  constructor; [by exists VNull|]. constructor; [by exists VNull|].
  constructor.
Defined.

Lemma submit_twice_witness :
  calls_onAdd
    (trace (handleAdd defaultProps (after (handleAdd defaultProps) filled)
              (after (handleAdd defaultProps) filled)))
  = [].
Proof.
  apply (submit_twice defaultProps filled (fun _ => Ret tt)
           (required_field "name" (Some "Name") None));
    try done; [apply mock_fields_pass | by left].
Defined.

Lemma rows_are_visible_records_witness :
  row_key <$> rows_of (renderTableArea defaultProps testView initialHooks)
  = (fun item => js_get item "id") <$> visible defaultProps initialHooks.
Proof.
  by apply (rows_are_visible_records defaultProps testView initialHooks).
Defined.

Lemma empty_message_witness :
  renderTableArea emptyProps testView spaced
  = EmptyMessage "No results found".
Proof. by apply (empty_message emptyProps testView spaced). Defined.

Lemma renderActions_once_per_row_witness :
  custom_nodes (renderTableArea customActionProps testView initialHooks)
  = (fun _ => VStr "Custom Action")
      <$> visible customActionProps initialHooks.
Proof.
  by apply (renderActions_once_per_row customActionProps testView
              initialHooks).
Defined.

Lemma widgets_disabled_witness :
  is_Some (onAdd defaultProps) /\ formFields defaultProps <> [].
Proof.
  apply (widgets_disabled defaultProps testView initialHooks) with false.
  unfold widgets. rewrite !in_app_iff. right. left.
  cbn [defaultProps formFields length Nat.ltb Nat.leb onAdd jest_fn].
  apply in_app_iff. right. by left.
Defined.

